(** * Configuration reconciliation engine of openstack-ansible-wizard

    A shallow embedding of

    - [openstack_ansible_wizard/common/config.py]
      ([load_service_config], [save_service_config]),
    - [openstack_ansible_installer/screens/networks.py]
      ([AddEditCidrNetworkScreen.on_save] and the [NetworkScreen] methods
      [load_configs], [action_save_configs], [has_unsaved_changes],
      [action_pop_screen] and the block / provider-network handlers),
    - [openstack_ansible_wizard/screens/services/generic.py]
      ([GenericConfigScreen.has_unsaved_changes]),

    followed by the properties of the specification that concern them.

    Conventions.  Python dictionaries whose iteration order is observable
    (the block mapping [cidr_networks]) are association lists in insertion
    order; dictionaries that are only looked up, merged and compared are
    [gmap]s.  YAML values the code never inspects are elements of an
    abstract type with decidable equality.  The [ipaddress] module of the
    Python standard library is an interface ([IpAddress]); an IPv4
    instance is given for the examples. *)

From Stdlib Require Import Ascii String.
From stdpp Require Import base option list sorting strings gmap fin_maps.

Open Scope string_scope.
Open Scope list_scope.

(** ** Python built-ins used by the sources *)

Module Py.

(** [c in string.whitespace] for the ASCII range: what [str.strip()]
    removes (TAB, LF, VT, FF, CR, FS, GS, RS, US and the space). *)
Definition is_whitespace (c : ascii) : bool :=
  let n := nat_of_ascii c in
  (Nat.leb 9 n && Nat.leb n 13) || (Nat.leb 28 n && Nat.leb n 32).

Fixpoint lstrip (s : string) : string :=
  match s with
  | String c s' => if is_whitespace c then lstrip s' else s
  | EmptyString => EmptyString
  end.

(** [s.strip()] *)
Definition strip (s : string) : string :=
  String.rev (lstrip (String.rev (lstrip s))).

(** [s.split(sep)] for a one-character separator: never empty. *)
Fixpoint split (sep : ascii) (s : string) : list string :=
  match s with
  | EmptyString => [EmptyString]
  | String c s' =>
      if Ascii.eqb c sep then EmptyString :: split sep s'
      else match split sep s' with
           | p :: ps => String c p :: ps
           | [] => [String c EmptyString]
           end
  end.

(** [c in s] for a one-character needle. *)
Fixpoint contains_char (c : ascii) (s : string) : bool :=
  match s with
  | EmptyString => false
  | String c' s' => Ascii.eqb c c' || contains_char c s'
  end.

(** [s.startswith(p)] and [s.endswith(suffix)] *)
Fixpoint starts_with (p s : string) : bool :=
  match p, s with
  | EmptyString, _ => true
  | String a p', String b s' => Ascii.eqb a b && starts_with p' s'
  | String _ _, EmptyString => false
  end.

Definition ends_with (suffix s : string) : bool :=
  starts_with (String.rev suffix) (String.rev s).

(** [parts[0]] and [parts[-1]] of a list that [split] returned. *)
Definition first (parts : list string) : string := hd EmptyString parts.
Definition final (parts : list string) : string := List.last parts EmptyString.

(** [sorted(l)] on strings: the ascending arrangement of [l] for the
    code-point order, which on byte strings is [String.le]. *)
Definition sorted (l : list string) : list string := merge_sort String.le l.

(** *** Insertion-ordered dictionaries with string keys *)

Definition dict (A : Type) : Type := list (string * A).

Section Dict.
Context {A : Type}.

Definition keys (d : dict A) : list string := d.*1.
Definition values (d : dict A) : list A := d.*2.

(** [d.get(k)] *)
Fixpoint get (k : string) (d : dict A) : option A :=
  match d with
  | [] => None
  | (k', v) :: d' => if String.eqb k k' then Some v else get k d'
  end.

(** [d[k] = v]: an existing key keeps its position, a new key goes
    last. *)
Fixpoint set (k : string) (v : A) (d : dict A) : dict A :=
  match d with
  | [] => [(k, v)]
  | (k', v') :: d' =>
      if String.eqb k k' then (k', v) :: d' else (k', v') :: set k v d'
  end.

(** [d.pop(k, None)] as far as the dictionary is concerned. *)
Fixpoint remove (k : string) (d : dict A) : dict A :=
  match d with
  | [] => []
  | (k', v') :: d' =>
      if String.eqb k k' then d' else (k', v') :: remove k d'
  end.

(** In-place change of the value stored under [k], as in
    [d[k]["used_ips"].append(r)]. *)
Fixpoint adjust (f : A → A) (k : string) (d : dict A) : dict A :=
  match d with
  | [] => []
  | (k', v') :: d' =>
      if String.eqb k k' then (k', f v') :: d'
      else (k', v') :: adjust f k d'
  end.

(** [d1 == d2]: the same keys bound to the same values, whatever the
    insertion order. *)
Definition eqb `{EqDecision A} (d1 d2 : dict A) : bool :=
  bool_decide (list_to_map d1 =@{gmap string A} list_to_map d2).
End Dict.

End Py.

(** ** YAML values and the [ipaddress] interface *)

(** Values of a YAML document that the code stores, copies, merges and
    compares but never takes apart, considered up to Python's [==].
    [yaml_str] is the value a Python [str] denotes. *)
Class YamlValue (V : Type) := {
  yaml_eq_dec :: EqDecision V;
  yaml_str : string → V
}.

(** The part of Python's [ipaddress] module that the network screen calls:
    [ipaddress.ip_address(s)], [ipaddress.ip_network(s, strict=False)]
    ([None] where Python raises [ValueError]) and [ip in network]. *)
Class IpAddress := {
  address : Type;
  network : Type;
  ip_address : string → option address;
  ip_network : string → option network;
  contains : network → address → bool
}.

(** The YAML values that are Python [str]s, for the code that puts a
    loaded value into a text widget: [yaml_as_str v] is the string when
    [v] is one. *)
Class YamlText (V : Type) `{!YamlValue V} := {
  yaml_as_str : V → option string;
  yaml_as_str_str : ∀ s, yaml_as_str (yaml_str s) = Some s;
  yaml_as_str_Some : ∀ v s, yaml_as_str v = Some s → v = yaml_str s
}.

(** The Python objects that the provider-network dialog stores and
    tests besides [str]s: [None], a list of [str]s, the [Select.BLANK]
    of the widget library, and the truth value [bool(v)] of a value. *)
Class YamlData (V : Type) `{!YamlValue V} := {
  yaml_none : V;
  yaml_strs : list string → V;
  select_blank : V;
  truthy : V → bool
}.

(** ** [common/config.py]: the per-service configuration store *)

Module ServiceConfig.
Section ServiceConfig.
Context {V : Type} `{!YamlValue V}.

(** What [yaml.load] makes of a file. Documents that are neither a
    mapping nor falsy are left out: [merged_config.update] is not
    defined on them. *)
Inductive yaml_file :=
| YamlMapping (data : gmap string V)  (* a mapping *)
| YamlEmpty                            (* [None] or another falsy document: [or {}] *)
| YamlInvalid.                         (* [yaml.load] raises [YAMLError] *)

(** The directory [<config_path>/group_vars]: its regular files by name
    and its sub-directories, each with its regular files by name. The
    directory itself exists, sub-directories hold no directories, and no
    permission is ever missing. *)
Record group_vars := GroupVars {
  gv_files : gmap string yaml_file;
  gv_dirs : gmap string (gmap string yaml_file)
}.

Inductive error_message :=
| ErrorMovingLegacyFile (name : string)  (* "Error moving legacy file ..." *)
| ErrorLoading (name : string).          (* "Error loading ..." *)

Inductive exception :=
| FileExistsError     (* [mkdir] on the name of a regular file *)
| IsADirectory.       (* a directory under a legacy file name: not modelled *)

(** One call of [load_service_config]: the directory as the call leaves
    it, the moves [shutil.move] performed (source name in [group_vars],
    target name in the service directory), and the returned pair. *)
Inductive outcome :=
| Returned (gv : group_vars) (moved : list (string * string))
           (merged_config : gmap string V) (error : option error_message)
| Raised (e : exception).

(** [legacy_files] and the initial [new_name]. *)
Definition legacy_files (service_name : string) : list string :=
  if String.eqb service_name "all" then ["all.yml"; "all.yaml"]
  else [service_name +:+ ".yml"; service_name +:+ ".yaml";
        service_name +:+ "_all.yml"; service_name +:+ "_all.yaml"].

Definition initial_new_name (service_name : string) : option string :=
  if String.eqb service_name "all" then Some "vars.yml" else None.

(** The state of the migration loop: the files of [group_vars], the files
    of the service directory, [new_name] and the moves so far. *)
Record migration := Migration {
  mg_files : gmap string yaml_file;
  mg_service_dir : gmap string yaml_file;
  mg_new_name : option string;
  mg_moved : list (string * string)
}.

(** One iteration of [for legacy_file in legacy_files]. [new_name] is
    assigned only while it is unset, and is not reset between
    iterations; [shutil.move] onto an existing regular file replaces
    it. *)
Definition migrate_step (m : migration) (legacy_file : string) : migration :=
  match mg_files m !! legacy_file with
  | Some content =>
      let new_name :=
        match mg_new_name m with
        | Some n => n
        | None => "migrated_" +:+ legacy_file
        end in
      {| mg_files := delete legacy_file (mg_files m);
         mg_service_dir := <[new_name := content]> (mg_service_dir m);
         mg_new_name := Some new_name;
         mg_moved := mg_moved m ++ [(legacy_file, new_name)] |}
  | None => m
  end.

(** [fnmatch(name, "*.y*ml")] *)
Fixpoint matches_y_ml (name : string) : bool :=
  match name with
  | EmptyString => false
  | String c rest =>
      (Ascii.eqb c "."
       && match rest with
          | String c' rest' => Ascii.eqb c' "y" && Py.ends_with "ml" rest'
          | EmptyString => false
          end)
      || matches_y_ml rest
  end.

(** [service_dir_path.glob(pattern)], as names, in directory order. *)
Definition glob (pattern : string → bool) (dir : gmap string yaml_file)
  : list string :=
  filter (λ name, pattern name = true) (map_to_list dir).*1.

(** [config_files] after [config_files.sort(key=lambda p: p.name ==
    "wizzard.yml")]: a stable sort on a Boolean key. The list is built
    and then left unused by the loop below. *)
Definition config_files (dir : gmap string yaml_file) : list string :=
  let files := glob (Py.ends_with ".yml") dir ++ glob (Py.ends_with ".yaml") dir in
  filter (λ name, name ≠ "wizzard.yml") files
  ++ filter (λ name, name = "wizzard.yml") files.

(** The body of [for file in ...]: [merged_config.update(data)] per
    file, the first failing file aborts with an empty mapping. *)
Fixpoint load_files (dir : gmap string yaml_file) (names : list string)
    (merged_config : gmap string V) : gmap string V * option error_message :=
  match names with
  | [] => (merged_config, None)
  | file :: names' =>
      match dir !! file with
      | Some (YamlMapping data) => load_files dir names' (data ∪ merged_config)
      | Some YamlEmpty => load_files dir names' merged_config
      | Some YamlInvalid => (∅, Some (ErrorLoading file))
      | None => load_files dir names' merged_config
      end
  end.

(** What the loop returns for a directory whose only YAML file is
    [name]: the mapping of the file, nothing for an empty file, the error
    for a file that does not parse. *)
Definition loaded_alone (name : string) (content : yaml_file)
  : gmap string V * option error_message :=
  match content with
  | YamlMapping data => (data, None)
  | YamlEmpty => (∅, None)
  | YamlInvalid => (∅, Some (ErrorLoading name))
  end.

(** The files the loop really visits: [sorted(glob("*.y*ml"))]. *)
Definition loaded_files (dir : gmap string yaml_file) : list string :=
  Py.sorted (glob matches_y_ml dir).

Definition load_service_config (gv : group_vars) (service_name : string)
  : outcome :=
  match gv_files gv !! service_name with
  | Some _ => Raised FileExistsError
  | None =>
      if bool_decide (Exists (λ f, is_Some (gv_dirs gv !! f)) (legacy_files service_name))
      then Raised IsADirectory
      else
        let service_dir := default ∅ (gv_dirs gv !! service_name) in
        let m := foldl migrate_step
                   {| mg_files := gv_files gv; mg_service_dir := service_dir;
                      mg_new_name := initial_new_name service_name;
                      mg_moved := [] |}
                   (legacy_files service_name) in
        let _unused := config_files (mg_service_dir m) in
        let '(merged_config, error) :=
          load_files (mg_service_dir m) (loaded_files (mg_service_dir m)) ∅ in
        Returned {| gv_files := mg_files m;
                    gv_dirs := <[service_name := mg_service_dir m]> (gv_dirs gv) |}
                 (mg_moved m) merged_config error
  end.

(** [save_service_config]: [data] goes to [wizzard.yml] of the service
    directory, which is created when missing. *)
Definition save_service_config (gv : group_vars) (service_name : string)
    (data : gmap string V) : group_vars :=
  let service_dir := default ∅ (gv_dirs gv !! service_name) in
  {| gv_files := gv_files gv;
     gv_dirs := <[service_name := <["wizzard.yml" := YamlMapping data]> service_dir]>
                  (gv_dirs gv) |}.

End ServiceConfig.
Arguments yaml_file V : clear implicits.
Arguments group_vars V : clear implicits.
Arguments outcome V : clear implicits.
Arguments migration V : clear implicits.
End ServiceConfig.

(** ** [screens/networks.py]: the network document *)

Module Network.
Section Network.
Context {V : Type} `{!YamlValue V} `{!IpAddress}.

(** *** The document *)

(** [global_overrides] and the whole document as plain values: what
    [copy.deepcopy] and [==] see. A key is absent ([None]) or holds a
    value of the expected shape; [go_rest] and [doc_rest] are the keys
    the screen does not know. *)
Record overrides := Overrides {
  go_cidr_networks : option (Py.dict string);
  go_provider_networks : option (list V);
  go_rest : gmap string V
}.

Record document := Document {
  doc_cidr_networks : option (Py.dict string);
  doc_used_ips : option (list string);
  doc_global_overrides : option overrides;
  doc_rest : gmap string V
}.

(** [{}] *)
Definition empty_overrides : overrides := Overrides None None ∅.
Definition empty_document : document := Document None None None ∅.

(** The objects a block mapping can be: a ruamel [CommentedMap], which
    carries an optional anchor [(value, always_dump)], or a plain [dict]
    as the literal [{}] makes. *)
Inductive pyobj :=
| CommentedMap (anchor : option (string * bool)) (items : Py.dict string)
| PlainDict (items : Py.dict string).

Definition obj_items (o : pyobj) : Py.dict string :=
  match o with CommentedMap _ items | PlainDict items => items end.

(** A document as [yaml.load] returns it: an object graph. The two
    [cidr_networks] keys hold references into [cd_heap], equal
    references meaning the same object. [cd_overrides_first] tells
    whether the key [global_overrides] precedes the key [cidr_networks]
    in the top-level mapping. *)
Record overrides_obj := OverridesObj {
  ov_cidr_networks : option nat;
  ov_provider_networks : option (list V);
  ov_rest : gmap string V
}.

Record yaml_graph := YamlGraph {
  cd_heap : list pyobj;
  cd_cidr_networks : option nat;
  cd_used_ips : option (list string);
  cd_global_overrides : option overrides_obj;
  cd_overrides_first : bool;
  cd_rest : gmap string V
}.

(** The file [openstack_user_config.yml]. A YAML text and the graph it
    loads to determine each other (anchors and aliases encode the
    sharing), so the file holds the graph. *)
Inductive user_config_file :=
| NoFile                       (* [exists()] is false, [open] raises [IOError] *)
| Unparsable                   (* [yaml.load] raises [YAMLError] *)
| Yaml (data : yaml_graph).

Definition read_mapping (heap : list pyobj) (ref : option nat)
  : option (Py.dict string) :=
  r ← ref; obj_items <$> heap !! r.

Definition view_overrides (heap : list pyobj) (o : overrides_obj) : overrides :=
  {| go_cidr_networks := read_mapping heap (ov_cidr_networks o);
     go_provider_networks := ov_provider_networks o;
     go_rest := ov_rest o |}.

(** The graph as a plain value. *)
Definition view (data : yaml_graph) : document :=
  {| doc_cidr_networks := read_mapping (cd_heap data) (cd_cidr_networks data);
     doc_used_ips := cd_used_ips data;
     doc_global_overrides := view_overrides (cd_heap data) <$> cd_global_overrides data;
     doc_rest := cd_rest data |}.

(** *** The screen *)

(** One entry of [self.cidr_networks]: [{"cidr": ..., "used_ips": [...]}] *)
Record block := Block {
  cidr : string;
  used_ips : list string
}.

Record screen := Screen {
  initial_data : document;
  provider_networks : list V;
  cidr_networks : Py.dict block
}.

(** [__init__]: [initial_data = {}], the reactives at their defaults. *)
Definition new_screen : screen := Screen empty_document [] [].

(** *** [AddEditCidrNetworkScreen.on_save] *)

(** The widgets' contents: the two [Input.value]s and
    [TextArea.text.splitlines()]. *)
Record cidr_form := CidrForm {
  cidr_name_input : string;
  cidr_value_input : string;
  cidr_used_ips_lines : list string
}.

(** What [error_widget.update] shows. *)
Inductive cidr_error :=
| NameOrValueEmpty     (* "Network Name and CIDR Value cannot be empty." *)
| NetmaskMissing       (* "CIDR value must include a netmask (e.g., /24)." *)
| InvalidNetwork (value : string)
                       (* "'{value}' is not a valid network CIDR." *)
| RangeOutside (ip_range value : string)
                       (* "IP range '{ip_range}' is outside the '{value}' CIDR." *)
| InvalidAddress (text : string).
                       (* "Invalid IP address in 'Used IPs': '{text}' does not
                          appear to be an IPv4 or IPv6 address" *)

(** [parts = [p.strip() for p in ip_range.split(',')]] *)
Definition range_parts (ip_range : string) : list string :=
  Py.strip <$> Py.split "," ip_range.

(** Step 2 of [on_save]: the first offending range ends the loop. *)
Fixpoint check_used_ips (net : network) (value : string)
    (used_ips_list : list string) : option cidr_error :=
  match used_ips_list with
  | [] => None
  | ip_range :: rest =>
      let parts := range_parts ip_range in
      match ip_address (Py.first parts) with
      | None => Some (InvalidAddress (Py.first parts))
      | Some start_ip =>
          match ip_address (Py.final parts) with
          | None => Some (InvalidAddress (Py.final parts))
          | Some end_ip =>
              if negb (contains net start_ip) || negb (contains net end_ip)
              then Some (RangeOutside ip_range value)
              else check_used_ips net value rest
          end
      end
  end.

(** [on_save]: an error shown in the dialog, which stays open, or the
    pair passed to [dismiss]. *)
Definition on_save (form : cidr_form) : cidr_error + (string * block) :=
  let name := Py.strip (cidr_name_input form) in
  let value := Py.strip (cidr_value_input form) in
  let used_ips_list :=
    filter (λ line, line ≠ "") (Py.strip <$> cidr_used_ips_lines form) in
  if bool_decide (name = "") || bool_decide (value = "") then inl NameOrValueEmpty
  else if negb (Py.contains_char "/" value) then inl NetmaskMissing
  else match ip_network value with
       | None => inl (InvalidNetwork value)
       | Some net =>
           match check_used_ips net value used_ips_list with
           | Some e => inl e
           | None => inr (name, {| cidr := value; used_ips := used_ips_list |})
           end
       end.

(** The validation rules in the words of the specification: both
    endpoints of a range parse and lie in the network ... *)
Definition endpoints_inside (net : network) (ip_range : string) : Prop :=
  ∃ start_ip end_ip,
    ip_address (Py.first (range_parts ip_range)) = Some start_ip
    ∧ ip_address (Py.final (range_parts ip_range)) = Some end_ip
    ∧ contains net start_ip = true
    ∧ contains net end_ip = true.

(** ... name and cidr are not empty, the cidr has a prefix-length marker
    and parses, and every range lies in it. *)
Definition acceptable (name value : string) (ranges : list string) : Prop :=
  name ≠ "" ∧ value ≠ "" ∧ Py.contains_char "/" value = true
  ∧ ∃ net, ip_network value = Some net ∧ Forall (endpoints_inside net) ranges.

(** What an error message points at. *)
Definition names_offender (name value : string) (ranges : list string)
    (e : cidr_error) : Prop :=
  match e with
  | NameOrValueEmpty => name = "" ∨ value = ""
  | NetmaskMissing => Py.contains_char "/" value = false
  | InvalidNetwork v => v = value ∧ ip_network value = None
  | RangeOutside ip_range v =>
      v = value ∧ ip_range ∈ ranges
      ∧ ∃ net, ip_network value = Some net ∧ ¬ endpoints_inside net ip_range
  | InvalidAddress text =>
      ip_address text = None
      ∧ ∃ ip_range, ip_range ∈ ranges
          ∧ (text = Py.first (range_parts ip_range)
             ∨ text = Py.final (range_parts ip_range))
  end.

(** *** [NetworkScreen.load_configs] *)

Inductive load_status :=
| FileNotFound         (* "File not found: ..." *)
| ErrorLoadingYaml     (* "Error loading YAML: ..." *)
| Loaded.

(** [first_ip_str = ip_range_str.split(',')[0].strip()] *)
Definition first_ip_str (ip_range_str : string) : string :=
  Py.strip (Py.first (Py.split "," ip_range_str)).

(** [cidr_net_objects]: the blocks whose cidr parses, in declared order. *)
Definition cidr_net_objects (cidr_networks_raw : Py.dict string)
  : list (string * network) :=
  omap (λ '(name, cidr_str), (λ net, (name, net)) <$> ip_network cidr_str)
       cidr_networks_raw.

(** The inner [for net_name, network in cidr_net_objects] with its
    [break]: the name of the first network holding [ip]. *)
Definition find_network (objs : list (string * network)) (ip : address)
  : option string :=
  fst <$> List.find (λ '(_, net), contains net ip) objs.

(** The block that the body of [for ip_range_str in used_ips_raw] picks
    for a range: the first network, in declared order, that holds the
    first address of the range; none when that address does not parse or
    no network holds it. *)
Definition owner (objs : list (string * network)) (ip_range_str : string)
  : option string :=
  ip ← ip_address (first_ip_str ip_range_str); find_network objs ip.

(** [processed_cidrs[net_name]["used_ips"].append(ip_range_str)] *)
Definition append_range (ip_range_str : string) (b : block) : block :=
  {| cidr := cidr b; used_ips := used_ips b ++ [ip_range_str] |}.

(** One iteration of [for ip_range_str in used_ips_raw]. A range whose
    first address does not parse, or lies in no network, is logged and
    nothing else. *)
Definition associate (objs : list (string * network))
    (processed_cidrs : Py.dict block) (ip_range_str : string) : Py.dict block :=
  match ip_address (first_ip_str ip_range_str) with
  | Some ip =>
      match find_network objs ip with
      | Some net_name => Py.adjust (append_range ip_range_str) net_name processed_cidrs
      | None => processed_cidrs
      end
  | None => processed_cidrs
  end.

Definition process_cidrs (cidr_networks_raw : Py.dict string)
    (used_ips_raw : list string) : Py.dict block :=
  foldl (associate (cidr_net_objects cidr_networks_raw))
        ((λ '(name, value), (name, {| cidr := value; used_ips := [] |}))
           <$> cidr_networks_raw)
        used_ips_raw.

(** The blocks of [processed_cidrs] during the loop: the declared names
    and cidrs, in declared order. *)
Definition declared (d : Py.dict block) : Py.dict string :=
  prod_map id cidr <$> d.

(** Every range of every block was put there by the loop: its first
    address parses and the first network holding it is the block's. *)
Definition placed (objs : list (string * network)) (d : Py.dict block) : Prop :=
  ∀ name b q, (name, b) ∈ d → q ∈ used_ips b →
    ∃ ip, ip_address (first_ip_str q) = Some ip
          ∧ find_network objs ip = Some name.

Definition load_configs (file : user_config_file) (self : screen)
  : load_status * screen :=
  match file with
  | NoFile => (FileNotFound, self)
  | Unparsable => (ErrorLoadingYaml, self)
  | Yaml config =>
      let data := view config in
      let global_overrides := default empty_overrides (doc_global_overrides data) in
      let provider_networks_raw := default [] (go_provider_networks global_overrides) in
      let cidr_networks_raw := default [] (doc_cidr_networks data) in
      let used_ips_raw := default [] (doc_used_ips data) in
      (Loaded,
       {| initial_data := data;
          provider_networks := provider_networks_raw;
          cidr_networks := process_cidrs cidr_networks_raw used_ips_raw |})
  end.

(** The first address of [ip_range_str] parses and lies in the network
    of the block's cidr: the [UsedRange] ownership of the
    specification. *)
Definition range_in_block (b : block) (ip_range_str : string) : Prop :=
  ∃ ip net,
    ip_address (first_ip_str ip_range_str) = Some ip
    ∧ ip_network (cidr b) = Some net
    ∧ contains net ip = true.

(** Block names are distinct and every block holds ranges of its own
    only. *)
Definition blocks_own_their_ranges (d : Py.dict block) : Prop :=
  NoDup (Py.keys d)
  ∧ ∀ name b, (name, b) ∈ d → Forall (range_in_block b) (used_ips b).

(** *** [NetworkScreen.has_unsaved_changes] *)

(** [not d] for a document: no key at all. *)
Definition is_empty (d : document) : bool :=
  bool_decide (doc_cidr_networks d = None)
  && bool_decide (doc_used_ips d = None)
  && bool_decide (doc_global_overrides d = None)
  && bool_decide (doc_rest d = ∅).

Definition mapping_eqb (a b : option (Py.dict string)) : bool :=
  match a, b with
  | Some d1, Some d2 => Py.eqb d1 d2
  | None, None => true
  | _, _ => false
  end.

Definition overrides_eqb (a b : overrides) : bool :=
  mapping_eqb (go_cidr_networks a) (go_cidr_networks b)
  && bool_decide (go_provider_networks a = go_provider_networks b)
  && bool_decide (go_rest a = go_rest b).

(** [a == b] on documents: key by key, mappings compared as mappings. *)
Definition document_eqb (a b : document) : bool :=
  mapping_eqb (doc_cidr_networks a) (doc_cidr_networks b)
  && bool_decide (doc_used_ips a = doc_used_ips b)
  && match doc_global_overrides a, doc_global_overrides b with
     | Some x, Some y => overrides_eqb x y
     | None, None => true
     | _, _ => false
     end
  && bool_decide (doc_rest a = doc_rest b).

(** [{name: data['cidr'] for name, data in self.cidr_networks.items()}] *)
Definition current_cidrs (self : screen) : Py.dict string :=
  (λ '(name, data), (name, cidr data)) <$> cidr_networks self.

(** [for data in self.cidr_networks.values(): l.extend(data['used_ips'])] *)
Definition current_used_ips (self : screen) : list string :=
  concat (used_ips <$> Py.values (cidr_networks self)).

Definition has_unsaved_changes (self : screen) : bool :=
  if is_empty (initial_data self) then false
  else
    let initial := initial_data self in
    let current_data :=
      {| doc_cidr_networks := Some (current_cidrs self);
         doc_used_ips := Some (Py.sorted (current_used_ips self));
         doc_global_overrides :=
           (let go := default empty_overrides (doc_global_overrides initial) in
            Some {| go_cidr_networks := go_cidr_networks go;
                    go_provider_networks := Some (provider_networks self);
                    go_rest := go_rest go |});
         doc_rest := doc_rest initial |} in
    let initial_comparable_data :=
      {| doc_cidr_networks := doc_cidr_networks initial;
         doc_used_ips :=
           Some (match doc_used_ips initial with
                 | Some l => Py.sorted l
                 | None => []
                 end);
         doc_global_overrides := doc_global_overrides initial;
         doc_rest := doc_rest initial |} in
    negb (document_eqb initial_comparable_data current_data).

(** [action_pop_screen]: is [ConfirmExitScreen] pushed before the screen
    is popped or the application exits? *)
Definition asks_confirmation (self : screen) : bool := has_unsaved_changes self.

(** *** The handlers that change the screen's collections *)

(** The value an [AddEditCidrNetworkScreen] is dismissed with when the
    form is submitted as [form]: a rejected form dismisses nothing. *)
Definition submit (form : cidr_form) : option (string * block) :=
  match on_save form with
  | inr cidr_info => Some cidr_info
  | inl _ => None
  end.

Definition with_cidr_networks (self : screen) (d : Py.dict block) : screen :=
  {| initial_data := initial_data self;
     provider_networks := provider_networks self;
     cidr_networks := d |}.

Definition with_provider_networks (self : screen) (l : list V) : screen :=
  {| initial_data := initial_data self;
     provider_networks := l;
     cidr_networks := cidr_networks self |}.

Definition on_add_cidr_button_pressed (self : screen)
    (cidr_info : option (string * block)) : screen :=
  match cidr_info with
  | Some (name, data) =>
      with_cidr_networks self (Py.set name data (cidr_networks self))
  | None => self
  end.

Definition action_edit_cidr (self : screen) (cidr_name : string)
    (updated_cidr_info : option (string * block)) : screen :=
  if bool_decide (cidr_name = "") then self
  else match Py.get cidr_name (cidr_networks self) with
       | None => self
       | Some _ =>
           match updated_cidr_info with
           | Some (name, data) =>
               with_cidr_networks self (Py.set name data (cidr_networks self))
           | None => self
           end
       end.

Definition on_delete_cidr_button_pressed (self : screen) (cidr_name : string)
    (confirmed : bool) : screen :=
  if confirmed then
    match Py.get cidr_name (cidr_networks self) with
    | Some _ => with_cidr_networks self (Py.remove cidr_name (cidr_networks self))
    | None => self
    end
  else self.

Definition action_add_provider_network (self : screen)
    (new_net_info : option V) : screen :=
  match new_net_info with
  | Some net => with_provider_networks self (provider_networks self ++ [net])
  | None => self
  end.

(** [self.provider_networks[index]] raises [IndexError] out of range,
    before anything is assigned. *)
Definition action_edit_provider_network (self : screen) (index : nat)
    (updated_net_info : option V) : screen :=
  match provider_networks self !! index, updated_net_info with
  | Some _, Some net =>
      with_provider_networks self (<[index := net]> (provider_networks self))
  | _, _ => self
  end.

Definition on_delete_provider_network_button_pressed (self : screen)
    (index : nat) (confirmed : bool) : screen :=
  match provider_networks self !! index with
  | Some _ =>
      if confirmed
      then with_provider_networks self (delete index (provider_networks self))
      else self
  | None => self
  end.

(** The operator's actions between a load and a save. The block dialogs
    are given as the form that is submitted. *)
Inductive mutation :=
| AddCidr (form : cidr_form)
| EditCidr (cidr_name : string) (form : cidr_form)
| DeleteCidr (cidr_name : string)
| AddProviderNetwork (net : V)
| EditProviderNetwork (index : nat) (net : V)
| DeleteProviderNetwork (index : nat).

Definition mutate (self : screen) (m : mutation) : screen :=
  match m with
  | AddCidr form => on_add_cidr_button_pressed self (submit form)
  | EditCidr cidr_name form => action_edit_cidr self cidr_name (submit form)
  | DeleteCidr cidr_name => on_delete_cidr_button_pressed self cidr_name true
  | AddProviderNetwork net => action_add_provider_network self (Some net)
  | EditProviderNetwork index net =>
      action_edit_provider_network self index (Some net)
  | DeleteProviderNetwork index =>
      on_delete_provider_network_button_pressed self index true
  end.

(** *** [NetworkScreen.action_save_configs] *)

Inductive save_status :=
| SavingChanges        (* "Saving changes...": an exception escaped the worker *)
| NoChangesToSave      (* "No changes to save." *)
| ErrorSavingFile      (* "Error saving file: ..." *)
| ChangesSaved.        (* "Changes saved successfully." *)

(** [m.yaml_set_anchor(name, always_dump=True)]: plain dictionaries have
    no such method ([AttributeError]). *)
Definition yaml_set_anchor (name : string) (heap : list pyobj) (ref : nat)
  : option (list pyobj) :=
  match heap !! ref with
  | Some (CommentedMap _ items) =>
      Some (<[ref := CommentedMap (Some (name, true)) items]> heap)
  | Some (PlainDict _) | None => None
  end.

Definition set_items (items : Py.dict string) (o : pyobj) : pyobj :=
  match o with
  | CommentedMap anchor _ => CommentedMap anchor items
  | PlainDict _ => PlainDict items
  end.

(** [m.clear()] and [m.update(d)], in place. *)
Definition clear (heap : list pyobj) (ref : nat) : list pyobj :=
  alter (set_items []) ref heap.

Definition update (d : Py.dict string) (heap : list pyobj) (ref : nat)
  : list pyobj :=
  alter (λ o, set_items (foldl (λ items '(k, v), Py.set k v items) (obj_items o) d) o)
        ref heap.

(** What [clear()] followed by [update(new_cidrs)] leaves in the
    mapping. *)
Definition written_cidrs (self : screen) : Py.dict string :=
  foldl (λ items '(k, v), Py.set k v items) [] (current_cidrs self).

(** The [try] block between the two [open]s. [None]: the
    [AttributeError] of [yaml_set_anchor]. *)
Definition update_config_data (self : screen) (config_data : yaml_graph)
  : option yaml_graph :=
  let new_cidrs := current_cidrs self in
  let new_used_ips := current_used_ips self in
  (* global_overrides = config_data.setdefault('global_overrides', {}) *)
  let '(global_overrides, overrides_first) :=
    match cd_global_overrides config_data with
    | Some o => (o, cd_overrides_first config_data)
    | None => (OverridesObj None None ∅, false)
    end in
  (* if 'cidr_networks' not in config_data: config_data['cidr_networks'] = {} *)
  let '(heap, ref, overrides_first) :=
    match cd_cidr_networks config_data with
    | Some ref => (cd_heap config_data, ref, overrides_first)
    | None => (cd_heap config_data ++ [PlainDict []],
               length (cd_heap config_data), true)
    end in
  (* global_overrides['cidr_networks'] = config_data['cidr_networks'] *)
  let shared := Some ref in
  heap ← yaml_set_anchor "cidr_networks" heap ref;
  let heap := clear heap ref in
  let heap := update new_cidrs heap ref in
  Some {| cd_heap := heap;
          cd_cidr_networks := Some ref;
          cd_used_ips := Some new_used_ips;
          cd_global_overrides :=
            Some {| ov_cidr_networks := shared;
                    ov_provider_networks := Some (provider_networks self);
                    ov_rest := ov_rest global_overrides |};
          cd_overrides_first := overrides_first;
          cd_rest := cd_rest config_data |}.

Definition action_save_configs (file : user_config_file) (self : screen)
  : save_status * user_config_file * screen :=
  if negb (has_unsaved_changes self) then (NoChangesToSave, file, self)
  else
    match file with
    | NoFile | Unparsable => (ErrorSavingFile, file, self)
    | Yaml config_data =>
        match update_config_data self config_data with
        | None => (SavingChanges, file, self)
        | Some config_data' =>
            let file' := Yaml config_data' in
            (ChangesSaved, file', (load_configs file' self).2)
        end
    end.

(** *** What [yaml.dump] writes for the block mapping *)

Inductive location :=
| TopLevel               (* [cidr_networks:] *)
| UnderGlobalOverrides.  (* [global_overrides: cidr_networks:] *)

Inductive node :=
| MappingNode (anchor : option string) (items : Py.dict string)
                         (* [&anchor] and the mapping, or the bare mapping *)
| AliasNode (anchor : string).
                         (* [*anchor] *)

(** The two keys in the order of the document, with the object each
    holds. *)
Definition cidr_occurrences (data : yaml_graph) : list (location * nat) :=
  let top := (λ ref, (TopLevel, ref)) <$> cd_cidr_networks data in
  let nested :=
    go ← cd_global_overrides data;
    (λ ref, (UnderGlobalOverrides, ref)) <$> ov_cidr_networks go in
  omap id (if cd_overrides_first data then [nested; top] else [top; nested]).

(** ruamel's serializer: an object gets an anchor when it is reached
    more than once or its own anchor is marked [always_dump]; the name is
    its own anchor's when it has one, a generated one otherwise. *)
Definition dumped_anchor (occurrences : list (location * nat)) (ref : nat)
    (o : pyobj) : option string :=
  let own :=
    match o with
    | CommentedMap (Some a) _ => Some a
    | _ => None
    end in
  if Nat.leb 2 (length (filter (λ p, p.2 = ref) occurrences))
  then Some (match own with Some (name, _) => name | None => "id001" end)
  else match own with
       | Some (name, true) => Some name
       | _ => None
       end.

(** The node written at each key: the mapping where its object is first
    reached, an alias where it is reached again. *)
Fixpoint dump_nodes (data : yaml_graph) (seen : list nat)
    (todo : list (location * nat)) : list (location * node) :=
  match todo with
  | [] => []
  | (loc, ref) :: todo' =>
      match cd_heap data !! ref with
      | Some o =>
          let anchor := dumped_anchor (cidr_occurrences data) ref o in
          (loc, if bool_decide (ref ∈ seen)
                then AliasNode (default "" anchor)
                else MappingNode anchor (obj_items o))
          :: dump_nodes data (ref :: seen) todo'
      | None => dump_nodes data seen todo'
      end
  end.

Definition dump_cidr_networks (data : yaml_graph) : list (location * node) :=
  dump_nodes data [] (cidr_occurrences data).

End Network.
Arguments Network.document V : clear implicits.
Arguments Network.overrides V : clear implicits.
Arguments Network.yaml_graph V : clear implicits.
Arguments Network.overrides_obj V : clear implicits.
Arguments Network.user_config_file V : clear implicits.
Arguments Network.screen V : clear implicits.
Arguments Network.mutation V : clear implicits.
End Network.

(** ** [screens/networks.py]: the provider-network dialog *)

Module ProviderNetwork.
Section ProviderNetwork.
Context {V : Type} `{!YamlValue V} `{!YamlData V}.

(** [network_data], one entry of [provider_networks]: the mapping under
    its key [network], when it has the key, and its other keys.
    [{}] is [ProviderNetwork None ∅]. *)
Record provider_network := ProviderNetwork {
  nd_network : option (gmap string V);
  nd_rest : gmap string V
}.

(** The widgets' contents: the [Input.value]s, the [Select.value]s and
    [TextArea.text.splitlines()]. *)
Record form := Form {
  net_bridge : string;
  net_type : V;
  net_interface : string;
  host_interface : string;
  net_ip_from_q : V;
  net_groups_lines : list string
}.

(** [compose]: the selection the [IP From Network] widget starts with.
    A network name that is no longer among [cidr_options] is reset to
    blank. *)
Definition current_ip_from_q (cidr_options : list string)
    (network_data : provider_network) : V :=
  let net := default ∅ (nd_network network_data) in
  let current_ip_from_q := default select_blank (net !! "ip_from_q") in
  if bool_decide (current_ip_from_q ∈ yaml_str <$> cidr_options)
  then current_ip_from_q else select_blank.

(** [errors] of [on_save]: the labels of the required fields that are
    empty. *)
Definition errors (form : form) : list string :=
  (if bool_decide (Py.strip (net_bridge form) = "") then ["Bridge"] else [])
  ++ (if negb (truthy (net_type form)) then ["Type"] else [])
  ++ (if bool_decide (Py.strip (net_interface form) = "")
      then ["Container Interface"] else [])
  ++ (if negb (truthy (net_ip_from_q form))
         || bool_decide (net_ip_from_q form = select_blank)
      then ["IP From Network"] else []).

(** [groups = [g.strip() for g in groups_text.splitlines() if g.strip()]] *)
Definition groups (form : form) : list string :=
  filter (λ g, g ≠ "") (Py.strip <$> net_groups_lines form).

(** [on_save]: the labels shown in the dialog, which stays open, or the
    entry passed to [dismiss]: a copy of [network_data] in which the
    fields of the dialog are set. *)
Definition on_save (network_data : provider_network) (form : form)
  : list string + provider_network :=
  if bool_decide (errors form ≠ []) then inl (errors form)
  else
    let original := default ∅ (nd_network network_data) in
    let network :=
      <["group_binds" := yaml_strs (groups form)]>
        (<["ip_from_q" := net_ip_from_q form]>
           (<["container_interface" := yaml_str (Py.strip (net_interface form))]>
              (<["type" := net_type form]>
                 (<["container_bridge" := yaml_str (Py.strip (net_bridge form))]>
                    original)))) in
    (* host_bind_override = ....value.strip() or None *)
    let host := Py.strip (host_interface form) in
    let host_bind_override :=
      if bool_decide (host = "") then yaml_none else yaml_str host in
    let network :=
      if negb (bool_decide (host = ""))
         || from_option truthy false (original !! "host_bind_override")
      then <["host_bind_override" := host_bind_override]> network
      else network in
    inr {| nd_network := Some network; nd_rest := nd_rest network_data |}.

(** The keys of [network] that the dialog writes. *)
Definition managed : list string :=
  ["container_bridge"; "type"; "container_interface"; "ip_from_q";
   "group_binds"; "host_bind_override"].

End ProviderNetwork.
Arguments provider_network V : clear implicits.
Arguments form V : clear implicits.
End ProviderNetwork.

(** ** [screens/services/generic.py]: the generic configuration screen *)

Module Generic.
Section Generic.
Context {V : Type} `{!YamlValue V}.

(** [initial_data] and the values of the two [Input] widgets. *)
Record screen := Screen {
  initial_data : gmap string V;
  internal_lb_vip_address : string;
  external_lb_vip_address : string
}.

(** [__init__] and the freshly composed widgets. *)
Definition new_screen : screen := Screen ∅ "" "".

Definition _get_current_config (self : screen) : Py.dict string :=
  [("internal_lb_vip_address", internal_lb_vip_address self);
   ("external_lb_vip_address", external_lb_vip_address self)].

Definition has_unsaved_changes (self : screen) : bool :=
  if bool_decide (initial_data self = ∅) then false
  else
    existsb
      (λ '(key, value),
         negb (bool_decide
                 (yaml_str value = default (yaml_str "") (initial_data self !! key))))
      (_get_current_config self).

(** [action_pop_screen]: is [ConfirmExitScreen] pushed? *)
Definition asks_confirmation (self : screen) : bool := has_unsaved_changes self.

(** Typing into the two inputs. *)
Definition type_values (self : screen) (internal external : string) : screen :=
  {| initial_data := initial_data self;
     internal_lb_vip_address := internal;
     external_lb_vip_address := external |}.

End Generic.
Arguments screen V : clear implicits.

(** *** Loading and saving through [common/config.py] *)

Section Store.
Import ServiceConfig.
Context {V : Type} `{!YamlValue V} `{!YamlText V}.

(** What a run of the [load_configs] worker leaves behind. *)
Inductive load_result :=
| Loaded (gv : group_vars V) (self : screen V)
    (* the widgets show the loaded values, the status line is cleared *)
| LoadError (gv : group_vars V) (error : error_message) (self : screen V)
    (* the status line shows [error]; the screen keeps its data *)
| LoadRaised.
    (* an exception escapes: [load_service_config] raised, or a loaded
       value is no [str] and cannot be the value of an [Input] *)

(** [update_widgets]: [Input.value = self.config_data.get(key, "")] for
    the two inputs. *)
Definition update_widgets (config_data : gmap string V) (self : screen V)
  : option (screen V) :=
  internal ← yaml_as_str (default (yaml_str "")
                            (config_data !! "internal_lb_vip_address"));
  external ← yaml_as_str (default (yaml_str "")
                            (config_data !! "external_lb_vip_address"));
  Some {| initial_data := initial_data self;
          internal_lb_vip_address := internal;
          external_lb_vip_address := external |}.

(** [load_configs], with the [update_widgets] it schedules:
    [initial_data] is a copy of the loaded mapping, [config_data] the
    mapping itself. *)
Definition load_configs (gv : group_vars V) (self : screen V) : load_result :=
  match load_service_config gv "all" with
  | Raised _ => LoadRaised
  | Returned gv' _ _ (Some error) => LoadError gv' error self
  | Returned gv' _ data None =>
      match update_widgets data
              {| initial_data := data;
                 internal_lb_vip_address := internal_lb_vip_address self;
                 external_lb_vip_address := external_lb_vip_address self |} with
      | Some self' => Loaded gv' self'
      | None => LoadRaised
      end
  end.

(** [new_config] of [action_save_configs]: the values of the two
    inputs. *)
Definition new_config (self : screen V) : gmap string V :=
  {[ "internal_lb_vip_address" := yaml_str (internal_lb_vip_address self);
     "external_lb_vip_address" := yaml_str (external_lb_vip_address self) ]}.

Inductive save_result :=
| SaveError
    (* "Error saving file: ...": [mkdir] raised, nothing is written *)
| Saved (gv : group_vars V) (reloaded : load_result).
    (* "Changes saved successfully.", then [load_configs] on the
       directory as the save left it *)

(** [action_save_configs]. [save_path.parent.mkdir(parents=True,
    exist_ok=True)] raises [FileExistsError] when [group_vars/all] is a
    regular file; the [except Exception] reports it. *)
Definition action_save_configs (gv : group_vars V) (self : screen V)
  : save_result :=
  if bool_decide (is_Some (gv_files gv !! "all")) then SaveError
  else
    let gv' := save_service_config gv "all" (new_config self) in
    Saved gv' (load_configs gv' self).

End Store.
End Generic.

(** ** An [ipaddress] instance for dotted-quad IPv4 literals

    Enough of [ipaddress] for the examples below: addresses [a.b.c.d] in
    decimal without leading zeros, networks [a.b.c.d] or [a.b.c.d/len]
    with a decimal prefix length; host bits are masked as [strict=False]
    does. *)

Module Ipv4.

Definition digit (c : ascii) : option N :=
  let n := N_of_ascii c in
  if N.leb 48 n && N.leb n 57 then Some (n - 48)%N else None.

Fixpoint decimal (acc : N) (s : string) : option N :=
  match s with
  | EmptyString => Some acc
  | String c s' => d ← digit c; decimal (10 * acc + d)%N s'
  end.

Definition octet (s : string) : option N :=
  match s with
  | EmptyString => None
  | String c rest =>
      if Nat.ltb 3 (String.length s) then None
      else if Ascii.eqb c "0" && negb (bool_decide (rest = "")) then None
      else n ← decimal 0 s; if N.leb n 255 then Some n else None
  end.

Definition parse_address (s : string) : option N :=
  match Py.split "." s with
  | [a; b; c; d] =>
      a ← octet a; b ← octet b; c ← octet c; d ← octet d;
      Some (((a * 256 + b) * 256 + c) * 256 + d)%N
  | _ => None
  end.

Definition mask (ip len : N) : N :=
  N.shiftl (N.shiftr ip (32 - len)) (32 - len).

(** A network: its masked address and its prefix length. *)
Definition parse_network (s : string) : option (N * N) :=
  match Py.split "/" s with
  | [a] => ip ← parse_address a; Some (ip, 32%N)
  | [a; p] =>
      ip ← parse_address a;
      if bool_decide (p = "") then None
      else len ← decimal 0 p;
           if N.leb len 32 then Some (mask ip len, len) else None
  | _ => None
  end.

Definition member (net : N * N) (ip : N) : bool :=
  N.eqb (mask ip net.2) net.1.

Definition ipv4 : IpAddress :=
  {| address := N; network := N * N;
     ip_address := parse_address; ip_network := parse_network;
     contains := member |}.

End Ipv4.


#[global] Instance string_yaml : YamlValue string := {| yaml_str := id |}.

(** ** Scalars: the objects of the provider-network dialog, for the
    examples *)

Module Scalar.

Inductive scalar :=
| Str (s : string)
| Strs (l : list string)
| NoneValue
| Blank.          (* [Select.BLANK], an object that defines no [__bool__] *)

(** [bool(v)] *)
Definition bool_of (v : scalar) : bool :=
  match v with
  | Str s => negb (String.eqb s "")
  | Strs l => match l with [] => false | _ :: _ => true end
  | NoneValue => false
  | Blank => true
  end.

#[global] Instance scalar_eq_dec : EqDecision scalar.
Proof. solve_decision. Defined.

#[global] Instance scalar_yaml : YamlValue scalar := {| yaml_str := Str |}.

#[global] Instance scalar_data : YamlData scalar :=
  {| yaml_none := NoneValue; yaml_strs := Strs; select_blank := Blank;
     truthy := bool_of |}.

End Scalar.

#[global] Instance string_text : YamlText string :=
  {| yaml_as_str := Some;
     yaml_as_str_str := λ s, eq_refl;
     yaml_as_str_Some := λ v s, Some_inj v s |}.

(** ** Concrete inputs used by the examples *)

Module Examples.
Import ServiceConfig.

(** A service directory in which a packaged file sorts after the
    override file. *)
Definition override_and_later_file : group_vars string :=
  {| gv_files := ∅;
     gv_dirs :=
       {[ "haproxy" :=
            {[ "wizzard.yml" := YamlMapping {[ "haproxy_ssl" := "operator" ]};
               "zz_site.yml" := YamlMapping {[ "haproxy_ssl" := "site" ]} ]} ]} |}.

(** Two legacy files of one service. *)
Definition two_legacy_files : group_vars string :=
  {| gv_files :=
       {[ "haproxy.yml" := YamlMapping {[ "haproxy_ssl" := "true" ]};
          "haproxy_all.yml" := YamlMapping {[ "haproxy_bind" := "eth0" ]} ]};
     gv_dirs := ∅ |}.

(** A [group_vars] in use: two legacy files of [haproxy] and a file of
    another service; the [haproxy] directory holds a packaged file, the
    override file and a file that is no YAML file; another service has a
    directory of its own. *)
Definition site : group_vars string :=
  {| gv_files :=
       {[ "haproxy.yml" := YamlMapping {[ "haproxy_ssl" := "true" ]};
          "haproxy_all.yaml" := YamlMapping {[ "haproxy_bind" := "eth0" ]};
          "nova.yml" := YamlMapping {[ "nova_cpu_mode" := "host-model" ]} ]};
     gv_dirs :=
       {[ "haproxy" :=
            {[ "10_base.yml" :=
                 YamlMapping {[ "haproxy_ssl" := "false";
                                "haproxy_port" := "443" ]};
               "wizzard.yml" := YamlMapping {[ "haproxy_port" := "8443" ]};
               "README.md" := YamlInvalid ]};
          "nova" := {[ "wizzard.yml" := YamlEmpty ]} ]} |}.

(** A [group_vars] whose variables for all hosts are still in the
    legacy file. *)
Definition all_vars : group_vars string :=
  {| gv_files :=
       {[ "all.yml" :=
            YamlMapping {[ "internal_lb_vip_address" := "172.29.236.9";
                           "debug" := "false" ]} ]};
     gv_dirs := ∅ |}.

(** A service directory with two files that do not parse. *)
Definition broken : group_vars string :=
  {| gv_files := ∅;
     gv_dirs :=
       {[ "haproxy" :=
            {[ "a.yml" := YamlMapping {[ "haproxy_ssl" := "true" ]};
               "b.yaml" := YamlInvalid;
               "c.yml" := YamlInvalid ]} ]} |}.

Import Network.

(** The document of the specification's example: one block, one range
    inside it and one range inside no block; the block mapping is
    shared with [global_overrides] and no provider network is declared. *)
Definition one_block_one_orphan : yaml_graph string :=
  {| cd_heap := [CommentedMap (Some ("cidr_networks", false))
                   [("mgmt", "10.0.0.0/24")]];
     cd_cidr_networks := Some 0;
     cd_used_ips := Some ["10.0.0.5,10.0.0.10"; "192.168.9.9"];
     cd_global_overrides :=
       Some {| ov_cidr_networks := Some 0;
               ov_provider_networks := Some [];
               ov_rest := ∅ |};
     cd_overrides_first := false;
     cd_rest := {[ "shared-infra_hosts" := "infra1" ]} |}.

(** Two blocks whose ranges alternate in the file; the two
    [cidr_networks] keys hold separate copies of the mapping. *)
Definition two_blocks_interleaved : yaml_graph string :=
  {| cd_heap := [CommentedMap None
                   [("mgmt", "10.0.0.0/24"); ("storage", "10.1.0.0/16")];
                 CommentedMap None
                   [("mgmt", "10.0.0.0/24"); ("storage", "10.1.0.0/16")]];
     cd_cidr_networks := Some 0;
     cd_used_ips := Some ["10.1.0.4"; "10.0.0.5,10.0.0.10"; "10.1.2.2"];
     cd_global_overrides :=
       Some {| ov_cidr_networks := Some 1;
               ov_provider_networks := Some ["br-mgmt"];
               ov_rest := ∅ |};
     cd_overrides_first := true;
     cd_rest := ∅ |}.

(** An operator session on the second document: a block is added with
    a range, a rejected edit is attempted, and a provider network is
    added. *)
Definition session : list (mutation string) :=
  [AddCidr (CidrForm " tunnel " "172.29.240.0/22" ["172.29.240.1,172.29.240.50"; ""]);
   EditCidr "mgmt" (CidrForm "mgmt" "10.0.1.0/24" ["10.0.0.5,10.0.0.10"]);
   AddProviderNetwork "br-vxlan"].

(** The screens the examples look at: after loading each document,
    after [session], and after saving that. *)
Definition with_orphan : screen string :=
  (load_configs (H:=Ipv4.ipv4) (Yaml one_block_one_orphan) new_screen).2.

Definition loaded : screen string :=
  (load_configs (H:=Ipv4.ipv4) (Yaml two_blocks_interleaved) new_screen).2.

Definition edited : screen string :=
  foldl (mutate (H:=Ipv4.ipv4)) loaded session.

Definition saved : save_status * user_config_file string * screen string :=
  action_save_configs (H:=Ipv4.ipv4) (Yaml two_blocks_interleaved) edited.

Import ProviderNetwork Scalar.

(** A provider network as the file holds it, with a key the dialog does
    not know, and the dialog submitted on it with the host interface
    cleared. *)
Definition management_network : provider_network scalar :=
  {| nd_network :=
       Some {[ "container_bridge" := Str "br-mgmt";
               "type" := Str "raw";
               "container_interface" := Str "eth1";
               "ip_from_q" := Str "management";
               "host_bind_override" := Str "bond0";
               "is_management_address" := Str "true";
               "group_binds" := Strs ["all_containers"; "hosts"] ]};
     nd_rest := ∅ |}.

Definition management_form : form scalar :=
  {| net_bridge := " br-mgmt ";
     net_type := Str "raw";
     net_interface := "eth2";
     host_interface := "";
     net_ip_from_q := Str "management";
     net_groups_lines := ["all_containers"; " hosts "; ""] |}.

End Examples.

(** * Properties *)

(** ** The built-ins *)

Section PyFacts.

Lemma split_not_nil sep s : Py.split sep s ≠ [].
Proof.
  destruct s as [|c s]; simpl; [done|].
  destruct (Ascii.eqb c sep); [done|].
  by destruct (Py.split sep s).
Qed.

Lemma first_fmap (f : string → string) l :
  l ≠ [] → Py.first (f <$> l) = f (Py.first l).
Proof. by destruct l. Qed.

(** [sorted] returns an ascending arrangement of its argument ... *)
Lemma sorted_Sorted l : Sorted String.le (Py.sorted l).
Proof. apply (Sorted_merge_sort String.le). Qed.

Lemma sorted_Permutation l : Py.sorted l ≡ₚ l.
Proof. apply (merge_sort_Permutation String.le). Qed.

(** ... so it does not depend on the order of its argument. *)
Lemma sorted_permutation_invariant l1 l2 :
  l1 ≡ₚ l2 → Py.sorted l1 = Py.sorted l2.
Proof.
  intros Hp. apply (Sorted_unique String.le); try apply sorted_Sorted.
  by rewrite !sorted_Permutation.
Qed.

Lemma eqb_refl `{EqDecision A} (d : Py.dict A) : Py.eqb d d = true.
Proof. unfold Py.eqb. by apply bool_decide_eq_true. Qed.

End PyFacts.

(** ** The per-service configuration store *)

Section ServiceConfigFacts.
Import ServiceConfig.
Context {V : Type} `{!YamlValue V}.

Lemma load_files_single (name : string) (content : yaml_file V) :
  load_files {[ name := content ]} [name] ∅ = loaded_alone name content.
Proof.
  simpl. rewrite lookup_singleton_eq.
  destruct content as [data| |]; simpl; [|done..].
  by rewrite (right_id_L ∅ (∪)).
Qed.

(** C7: with [haproxy.yml] the only entry of [group_vars], a first call
    moves it to [haproxy/migrated_haproxy.yml] and returns what that file
    holds (its mapping when it is one); a second call finds no legacy
    file, moves nothing, leaves the directory as it is and returns the
    same. *)
Theorem legacy_migration_idempotent (content : yaml_file V) :
  let before :=
    {| gv_files := {[ "haproxy.yml" := content ]}; gv_dirs := ∅ |} in
  let after :=
    {| gv_files := ∅;
       gv_dirs := {[ "haproxy" := {[ "migrated_haproxy.yml" := content ]} ]} |} in
  let result := loaded_alone "migrated_haproxy.yml" content in
  load_service_config before "haproxy"
  = Returned after [("haproxy.yml", "migrated_haproxy.yml")] result.1 result.2
  ∧ load_service_config after "haproxy" = Returned after [] result.1 result.2
  ∧ match content with
    | YamlMapping data => result = (data, None)
    | _ => result.1 = ∅
    end.
Proof.
  intros before after result. split; [|split; [|by destruct content]].
  - unfold load_service_config.
    replace (gv_files before !! "haproxy") with (@None (yaml_file V))
      by (vm_compute; reflexivity).
    replace (bool_decide _) with false by (vm_compute; reflexivity).
    cbv zeta.
    replace (foldl migrate_step _ _) with
      {| mg_files := ∅;
         mg_service_dir := {[ "migrated_haproxy.yml" := content ]};
         mg_new_name := Some "migrated_haproxy.yml";
         mg_moved := [("haproxy.yml", "migrated_haproxy.yml")] |}
      by (vm_compute; reflexivity).
    cbn [mg_service_dir mg_files mg_moved].
    replace (loaded_files _) with ["migrated_haproxy.yml"]
      by (vm_compute; reflexivity).
    rewrite load_files_single. fold result.
    destruct result as [merged_config error]. f_equal.
  - unfold load_service_config.
    replace (gv_files after !! "haproxy") with (@None (yaml_file V))
      by (vm_compute; reflexivity).
    replace (bool_decide _) with false by (vm_compute; reflexivity).
    cbv zeta.
    replace (foldl migrate_step _ _) with
      {| mg_files := ∅;
         mg_service_dir := {[ "migrated_haproxy.yml" := content ]};
         mg_new_name := None;
         mg_moved := [] |}
      by (vm_compute; reflexivity).
    cbn [mg_service_dir mg_files mg_moved].
    replace (loaded_files _) with ["migrated_haproxy.yml"]
      by (vm_compute; reflexivity).
    rewrite load_files_single. fold result.
    destruct result as [merged_config error]. f_equal.
Qed.

End ServiceConfigFacts.

Section ServiceConfigExamples.
Import ServiceConfig Examples.

(** C1, at a directory holding [wizzard.yml] and [zz_site.yml], both
    defining [haproxy_ssl]: the loop visits [sorted(glob("*.y*ml"))], in
    which [wizzard.yml] comes first, and not [config_files], in which it
    comes last; the merged mapping holds the value of [zz_site.yml]. *)
Theorem override_file_not_applied_last :
  ∃ gv merged_config,
    load_service_config override_and_later_file "haproxy"
    = Returned gv [] merged_config None
    ∧ gv = override_and_later_file
    ∧ (∃ dir, gv_dirs gv !! "haproxy" = Some dir
              ∧ dir !! "wizzard.yml" = Some (YamlMapping {[ "haproxy_ssl" := "operator" ]})
              ∧ loaded_files dir = ["wizzard.yml"; "zz_site.yml"]
              ∧ config_files dir = ["zz_site.yml"; "wizzard.yml"])
    ∧ merged_config !! "haproxy_ssl" = Some "site".
Proof.
  eexists _, _. split; [vm_compute; reflexivity|].
  split; [vm_compute; reflexivity|].
  split; [|vm_compute; reflexivity].
  eexists. split; [vm_compute; reflexivity|].
  repeat split; vm_compute; reflexivity.
Qed.

(** C6, at a [group_vars] holding [haproxy.yml] and [haproxy_all.yml]:
    both are moved to [haproxy/migrated_haproxy.yml], the second move
    replacing what the first one put there; the key of [haproxy.yml] is
    in no file any more and not in the merged mapping. *)
Theorem second_legacy_file_replaces_first :
  ∃ merged_config,
    load_service_config two_legacy_files "haproxy"
    = Returned
        {| gv_files := ∅;
           gv_dirs :=
             {[ "haproxy" :=
                  {[ "migrated_haproxy.yml" :=
                       YamlMapping {[ "haproxy_bind" := "eth0" ]} ]} ]} |}
        [("haproxy.yml", "migrated_haproxy.yml");
         ("haproxy_all.yml", "migrated_haproxy.yml")]
        merged_config None
    ∧ merged_config = {[ "haproxy_bind" := "eth0" ]}
    ∧ merged_config !! "haproxy_ssl" = None.
Proof.
  eexists. split; [vm_compute; reflexivity|].
  split; vm_compute; reflexivity.
Qed.

End ServiceConfigExamples.

(** ** The per-service configuration store, in general *)

Section ServiceConfigLaws.
Import ServiceConfig.
Context {V : Type} `{!YamlValue V}.
Implicit Types (dir : gmap string (yaml_file V)) (gv : group_vars V)
  (names : list string) (merged_config : gmap string V).

(** *** The loop over the files *)

(** [name] holds a mapping that binds [k] to [v] / binds [k] to nothing. *)
Lemma load_files_lookup dir names merged_config k v :
  Forall (λ name, dir !! name ≠ Some YamlInvalid) names →
  (load_files dir names merged_config).2 = None
  ∧ ((load_files dir names merged_config).1 !! k = Some v ↔
     (∃ l1 name l2 data,
        names = l1 ++ name :: l2
        ∧ dir !! name = Some (YamlMapping data) ∧ data !! k = Some v
        ∧ Forall (λ name', ∀ data', dir !! name' = Some (YamlMapping data') →
                                     data' !! k = None) l2)
     ∨ (merged_config !! k = Some v
        ∧ Forall (λ name', ∀ data', dir !! name' = Some (YamlMapping data') →
                                     data' !! k = None) names)).
Proof.
  revert merged_config.
  induction names as [|file names IH]; intros merged_config Hvalid; simpl.
  { split; [done|]. split.
    - intros Hl. right. by split.
    - intros [(l1 & name & l2 & data & Hnil & _)|[Hl _]]; [|done].
      by destruct l1. }
  apply Forall_cons in Hvalid as [Hfile Hvalid].
  destruct (dir !! file) as [[data| |]|] eqn:Hdir; [|..|done|].
  - destruct (IH (data ∪ merged_config) Hvalid) as [-> IHl].
    split; [done|]. rewrite IHl. clear IHl. split.
    + intros [(l1 & name & l2 & data' & -> & Hname & Hk & Hl2)|[Hl Hall]].
      * left. exists (file :: l1), name, l2, data'. by rewrite app_comm_cons.
      * apply lookup_union_Some_raw in Hl as [Hl|[Hn Hl]].
        -- left. exists [], file, names, data. done.
        -- right. split; [done|]. apply Forall_cons. split; [|done].
           intros data' Hd. by simplify_eq.
    + intros [(l1 & name & l2 & data' & Heq & Hname & Hk & Hl2)|[Hl Hall]].
      * destruct l1 as [|f l1]; simplify_eq/=.
        -- right. split; [|done]. by apply lookup_union_Some_l.
        -- left. by exists l1, name, l2, data'.
      * apply Forall_cons in Hall as [Hf Hall]. right. split; [|done].
        apply lookup_union_Some_raw. right. split; [by apply Hf|done].
  - destruct (IH merged_config Hvalid) as [-> IHl].
    split; [done|]. rewrite IHl. clear IHl. split.
    + intros [(l1 & name & l2 & data' & -> & Hname & Hk & Hl2)|[Hl Hall]].
      * left. exists (file :: l1), name, l2, data'. by rewrite app_comm_cons.
      * right. split; [done|]. apply Forall_cons. split; [|done].
        intros data' Hd. by simplify_eq.
    + intros [(l1 & name & l2 & data' & Heq & Hname & Hk & Hl2)|[Hl Hall]].
      * destruct l1 as [|f l1]; simplify_eq/=.
        left. by exists l1, name, l2, data'.
      * apply Forall_cons in Hall as [Hf Hall]. by right.
  - destruct (IH merged_config Hvalid) as [-> IHl].
    split; [done|]. rewrite IHl. clear IHl. split.
    + intros [(l1 & name & l2 & data' & -> & Hname & Hk & Hl2)|[Hl Hall]].
      * left. exists (file :: l1), name, l2, data'. by rewrite app_comm_cons.
      * right. split; [done|]. apply Forall_cons. split; [|done].
        intros data' Hd. by simplify_eq.
    + intros [(l1 & name & l2 & data' & Heq & Hname & Hk & Hl2)|[Hl Hall]].
      * destruct l1 as [|f l1]; simplify_eq/=.
        left. by exists l1, name, l2, data'.
      * apply Forall_cons in Hall as [Hf Hall]. by right.
Qed.

(** The loop stops at the first file that does not parse. *)
Lemma load_files_error dir names merged_config :
  match (load_files dir names merged_config).2 with
  | None => Forall (λ name, dir !! name ≠ Some YamlInvalid) names
  | Some e =>
      (load_files dir names merged_config).1 = ∅
      ∧ ∃ l1 name l2,
          names = l1 ++ name :: l2 ∧ e = ErrorLoading name
          ∧ dir !! name = Some YamlInvalid
          ∧ Forall (λ name', dir !! name' ≠ Some YamlInvalid) l1
  end.
Proof.
  revert merged_config.
  induction names as [|file names IH]; intros merged_config; simpl; [done|].
  destruct (dir !! file) as [[data| |]|] eqn:Hdir; simpl.
  - specialize (IH (data ∪ merged_config)).
    destruct (load_files dir names (data ∪ merged_config)).2 as [e|].
    + destruct IH as (Hempty & l1 & name & l2 & -> & -> & Hname & Hl1).
      split; [done|]. exists (file :: l1), name, l2.
      split; [done|]. split; [done|]. split; [done|].
      apply Forall_cons. split; [congruence|done].
    + apply Forall_cons. split; [congruence|done].
  - specialize (IH merged_config).
    destruct (load_files dir names merged_config).2 as [e|].
    + destruct IH as (Hempty & l1 & name & l2 & -> & -> & Hname & Hl1).
      split; [done|]. exists (file :: l1), name, l2.
      split; [done|]. split; [done|]. split; [done|].
      apply Forall_cons. split; [congruence|done].
    + apply Forall_cons. split; [congruence|done].
  - split; [done|]. exists [], file, names. done.
  - specialize (IH merged_config).
    destruct (load_files dir names merged_config).2 as [e|].
    + destruct IH as (Hempty & l1 & name & l2 & -> & -> & Hname & Hl1).
      split; [done|]. exists (file :: l1), name, l2.
      split; [done|]. split; [done|]. split; [done|].
      apply Forall_cons. split; [congruence|done].
    + apply Forall_cons. split; [congruence|done].
Qed.

(** The files the loop visits: the names of the directory that match
    the pattern, each once, in ascending order. *)
Lemma elem_of_loaded_files dir name :
  name ∈ loaded_files dir ↔ is_Some (dir !! name) ∧ matches_y_ml name = true.
Proof.
  unfold loaded_files, glob.
  rewrite (sorted_Permutation _), list_elem_of_filter, list_elem_of_fmap.
  split.
  - intros [Hm ([n c] & -> & Hin)]. apply elem_of_map_to_list in Hin.
    split; [by eexists|done].
  - intros [[c Hc] Hm]. split; [done|]. exists (name, c).
    split; [done|]. by apply elem_of_map_to_list.
Qed.

Lemma NoDup_loaded_files dir : NoDup (loaded_files dir).
Proof.
  unfold loaded_files, glob. rewrite (sorted_Permutation _).
  apply NoDup_filter, NoDup_fst_map_to_list.
Qed.

Lemma loaded_files_sorted dir : StronglySorted String.le (loaded_files dir).
Proof. apply Sorted_StronglySorted; [apply _|apply sorted_Sorted]. Qed.

Lemma loaded_files_split dir l1 name l2 :
  loaded_files dir = l1 ++ name :: l2 →
  (∀ name', name' ∈ l1 → String.le name' name ∧ name' ≠ name)
  ∧ (∀ name', name' ∈ l2 → String.le name name' ∧ name' ≠ name).
Proof.
  intros Heq.
  pose proof (loaded_files_sorted dir) as Hs.
  pose proof (NoDup_loaded_files dir) as Hnd.
  rewrite Heq in Hs, Hnd.
  apply NoDup_app in Hnd as (_ & Hdisj & Hnd2).
  apply NoDup_cons in Hnd2 as [Hnin _].
  split.
  - intros name' Hin. split.
    + eapply StronglySorted_app_1_elem_of; [exact Hs|done|left].
    + intros ->. apply (Hdisj name Hin). left.
  - intros name' Hin. split.
    + apply StronglySorted_app_1_r in Hs.
      apply StronglySorted_cons in Hs as [Hall _].
      by eapply Forall_forall in Hall.
    + by intros ->.
Qed.


(** *** The migration loop *)

Lemma length_app (s1 s2 : string) :
  String.length (s1 +:+ s2) = String.length s1 + String.length s2.
Proof. induction s1 as [|c s1 IH]; simpl; [done|]. by rewrite <- IH. Qed.

Lemma app_ne_self (s1 s2 : string) : s2 ≠ "" → s1 +:+ s2 ≠ s1.
Proof.
  intros Hne Heq. apply (f_equal String.length) in Heq.
  rewrite length_app in Heq. destruct s2; [done|]. simpl in Heq. lia.
Qed.

Lemma legacy_files_not_service service_name :
  service_name ∉ legacy_files service_name.
Proof.
  unfold legacy_files.
  destruct (String.eqb_spec service_name "all") as [->|_].
  - by intros [|[|?%not_elem_of_nil]%elem_of_cons]%elem_of_cons.
  - intros Hin. repeat (apply elem_of_cons in Hin as [Hin|Hin];
      [symmetry in Hin; by apply app_ne_self in Hin|]).
    by apply not_elem_of_nil in Hin.
Qed.

Lemma NoDup_legacy_files service_name : NoDup (legacy_files service_name).
Proof.
  unfold legacy_files.
  destruct (String.eqb_spec service_name "all") as [->|_].
  - apply (bool_decide_unpack _). vm_compute. exact I.
  - repeat (apply NoDup_cons; split;
      [intros Hin; repeat (apply elem_of_cons in Hin as [Hin|Hin];
         [by apply (inj (String.app service_name)) in Hin|]);
       by apply not_elem_of_nil in Hin|]).
    apply NoDup_nil_2.
Qed.

Lemma filter_ext_elem_of {A} (P Q : A → Prop)
    `{!∀ x, Decision (P x), !∀ x, Decision (Q x)} (l : list A) :
  (∀ x, x ∈ l → P x ↔ Q x) → filter P l = filter Q l.
Proof.
  induction l as [|x l IH]; intros Hext; [done|].
  assert (filter P l = filter Q l) as Hl.
  { apply IH. intros y Hy. apply Hext. by right. }
  destruct (decide (P x)) as [HP|HP].
  - rewrite !filter_cons_True; [by rewrite Hl|by apply Hext; [left|]|done].
  - rewrite !filter_cons_False; [done| |done].
    intros HQ. apply HP, Hext; [left|done].
Qed.

(** The loop as a whole: every legacy file that exists is moved to one
    and the same target, named after the first of them unless the
    service is [all]; the target ends up with the content of the last
    of them. *)
Lemma migrate_foldl (m0 : migration V) (legacy : list string) :
  NoDup legacy →
  let existing := filter (λ f, is_Some (mg_files m0 !! f)) legacy in
  let target :=
    default ("migrated_" +:+ hd "" existing) (mg_new_name m0) in
  let m := foldl migrate_step m0 legacy in
  mg_moved m = mg_moved m0 ++ ((λ f, (f, target)) <$> existing)
  ∧ (∀ g, mg_files m !! g
          = if bool_decide (g ∈ legacy) then None else mg_files m0 !! g)
  ∧ mg_service_dir m
    = match last existing ≫= (mg_files m0 !!.) with
      | Some content => <[target := content]> (mg_service_dir m0)
      | None => mg_service_dir m0
      end.
Proof.
  revert m0. induction legacy as [|f legacy IH]; intros m0 Hnd; simpl.
  { split; [by rewrite app_nil_r|]. done. }
  apply NoDup_cons in Hnd as [Hnin Hnd].
  unfold migrate_step at 2 4 6.
  destruct (mg_files m0 !! f) as [content|] eqn:Hf.
  - set (target := default ("migrated_" +:+ f) (mg_new_name m0)).
    set (m1 := {| mg_files := delete f (mg_files m0);
                  mg_service_dir := <[target := content]> (mg_service_dir m0);
                  mg_new_name := Some target;
                  mg_moved := mg_moved m0 ++ [(f, target)] |}).
    assert ((match mg_new_name m0 with
             | Some n => n | None => "migrated_" +:+ f end) = target) as Ht
      by (unfold target; by destruct (mg_new_name m0)).
    rewrite !Ht. fold m1.
    destruct (IH m1 Hnd) as (Hmoved & Hfiles & Hdir).
    assert (filter (λ f0, is_Some (mg_files m1 !! f0)) legacy
            = filter (λ f0, is_Some (mg_files m0 !! f0)) legacy) as Hex.
    { apply filter_ext_elem_of. intros g Hg. simpl.
      rewrite lookup_delete_ne; [done|]. by intros ->. }
    rewrite Hex in Hmoved, Hdir. simpl in Hmoved, Hdir.
    rewrite filter_cons_True by (by rewrite Hf). simpl.
    fold target. split; [|split].
    + by rewrite Hmoved, <- app_assoc.
    + intros g. rewrite Hfiles. simpl.
      destruct (decide (g = f)) as [->|Hne].
      * rewrite (bool_decide_eq_true_2 (f ∈ f :: legacy)) by left.
        case_bool_decide; [done|]. apply lookup_delete_eq.
      * rewrite lookup_delete_ne by done.
        apply (f_equal (λ b : bool, if b then None else mg_files m0 !! g)).
        apply bool_decide_ext. rewrite elem_of_cons.
        split; [by right|by intros [?|?]].
    + rewrite Hdir.
      destruct (filter _ legacy) as [|g ex] eqn:Hfilter; simpl.
      * by rewrite Hf.
      * destruct (last (g :: ex)) as [h|] eqn:Hlast; simpl;
          [|by apply last_None in Hlast].
        assert (h ∈ legacy ∧ is_Some (mg_files m0 !! h)) as [Hh [c Hc]].
        { apply last_Some_elem_of in Hlast. rewrite <- Hfilter in Hlast.
          by apply list_elem_of_filter in Hlast as [??]. }
        rewrite lookup_delete_ne by (by intros ->). rewrite Hc.
        by rewrite insert_insert_eq.
  - destruct (IH m0 Hnd) as (Hmoved & Hfiles & Hdir).
    rewrite filter_cons_False by (rewrite Hf; by intros [??]).
    split; [done|]. split; [|done].
    intros g. rewrite Hfiles.
    destruct (decide (g = f)) as [->|Hne].
    + rewrite (bool_decide_eq_true_2 (f ∈ f :: legacy)) by left.
      by case_bool_decide.
    + apply (f_equal (λ b : bool, if b then None else mg_files m0 !! g)).
      apply bool_decide_ext. rewrite elem_of_cons.
      split; [by right|by intros [?|?]].
Qed.

Lemma migrate_foldl_absent (m0 : migration V) (legacy : list string) :
  Forall (λ f, mg_files m0 !! f = None) legacy →
  foldl migrate_step m0 legacy = m0.
Proof.
  induction 1 as [|f legacy Hf _ IH]; simpl; [done|].
  unfold migrate_step at 2. by rewrite Hf.
Qed.

(** What a call that returns has done. *)
Lemma load_service_config_Returned gv service_name gv' moved merged_config error :
  load_service_config gv service_name = Returned gv' moved merged_config error →
  let m := foldl migrate_step
             {| mg_files := gv_files gv;
                mg_service_dir := default ∅ (gv_dirs gv !! service_name);
                mg_new_name := initial_new_name service_name;
                mg_moved := [] |}
             (legacy_files service_name) in
  gv_files gv !! service_name = None
  ∧ Forall (λ f, gv_dirs gv !! f = None) (legacy_files service_name)
  ∧ gv' = {| gv_files := mg_files m;
             gv_dirs := <[service_name := mg_service_dir m]> (gv_dirs gv) |}
  ∧ moved = mg_moved m
  ∧ load_files (mg_service_dir m) (loaded_files (mg_service_dir m)) ∅
    = (merged_config, error).
Proof.
  intros Hr m. unfold load_service_config in Hr.
  destruct (gv_files gv !! service_name); [done|].
  case_bool_decide as Hdirs; [done|]. cbv zeta in Hr. fold m in Hr.
  destruct (load_files _ _ _) as [merged_config' error'] eqn:Hload.
  simplify_eq. split; [done|]. split; [|done].
  apply Forall_forall. intros f Hf.
  destruct (gv_dirs gv !! f) eqn:Hd; [|done].
  destruct Hdirs. apply Exists_exists. exists f. by rewrite Hd.
Qed.


(** *** What [load_service_config] returns *)

Lemma merged_lookup gv service_name gv' moved merged_config :
  load_service_config gv service_name = Returned gv' moved merged_config None →
  ∃ dir,
    gv_dirs gv' !! service_name = Some dir
    ∧ ∀ k v,
        merged_config !! k = Some v ↔
        ∃ name data,
          matches_y_ml name = true
          ∧ dir !! name = Some (YamlMapping data)
          ∧ data !! k = Some v
          ∧ ∀ name' data',
              matches_y_ml name' = true →
              dir !! name' = Some (YamlMapping data') →
              is_Some (data' !! k) → String.le name' name.
Proof.
  intros Hr.
  destruct (load_service_config_Returned _ _ _ _ _ _ Hr)
    as (_ & _ & -> & _ & Hload).
  set (dir := mg_service_dir _) in *. exists dir.
  split; [apply lookup_insert_eq|]. intros k v.
  pose proof (load_files_error dir (loaded_files dir) ∅) as Hvalid.
  rewrite Hload in Hvalid. simpl in Hvalid.
  destruct (load_files_lookup dir (loaded_files dir) ∅ k v Hvalid) as [_ Hiff].
  rewrite Hload in Hiff. simpl in Hiff. rewrite Hiff. clear Hiff. split.
  - intros [(l1 & name & l2 & data & Hsplit & Hname & Hk & Hl2)|[Hempty _]];
      [|by rewrite lookup_empty in Hempty].
    assert (name ∈ loaded_files dir) as Hin.
    { rewrite Hsplit. apply elem_of_app. right. left. }
    apply elem_of_loaded_files in Hin as [_ Hm].
    exists name, data. split; [done|]. split; [done|]. split; [done|].
    intros name' data' Hm' Hname' [v' Hk'].
    assert (name' ∈ loaded_files dir) as Hin'.
    { apply elem_of_loaded_files. split; [by eexists|done]. }
    destruct (loaded_files_split dir l1 name l2 Hsplit) as [Hl1 _].
    rewrite Hsplit in Hin'.
    apply elem_of_app in Hin' as [Hin'|[->|Hin']%elem_of_cons].
    + by apply Hl1.
    + done.
    + rewrite Forall_forall in Hl2. rewrite (Hl2 name' Hin' data' Hname') in Hk'.
      done.
  - intros (name & data & Hm & Hname & Hk & Hmax). left.
    assert (name ∈ loaded_files dir) as Hin.
    { apply elem_of_loaded_files. split; [by eexists|done]. }
    apply list_elem_of_split in Hin as (l1 & l2 & Hsplit).
    exists l1, name, l2, data. split; [done|]. split; [done|]. split; [done|].
    apply Forall_forall. intros name' Hin' data' Hname'.
    destruct (data' !! k) as [v'|] eqn:Hk'; [exfalso|done].
    destruct (loaded_files_split dir l1 name l2 Hsplit) as [_ Hl2].
    destruct (Hl2 name' Hin') as [Hle Hne]. apply Hne.
    apply (anti_symm String.le); [|done].
    apply (Hmax name' data'); [|done|by eexists].
    assert (name' ∈ loaded_files dir) as Hin''.
    { rewrite Hsplit. apply elem_of_app. right. by right. }
    by apply elem_of_loaded_files in Hin'' as [_ ?].
Qed.

(** X1: when [load_service_config] returns without error, the merged
    mapping binds a key to a value exactly when some file of the service
    directory matching [*.y*ml] holds a mapping with that binding and no
    file with a greater name (in code-point order) binds the key: among
    the files that define a key, the last in name order wins, whatever
    its name. *)
Theorem later_file_name_wins gv service_name gv' moved merged_config :
  load_service_config gv service_name = Returned gv' moved merged_config None →
  ∃ dir,
    gv_dirs gv' !! service_name = Some dir
    ∧ ∀ k v,
        merged_config !! k = Some v ↔
        ∃ name data,
          matches_y_ml name = true
          ∧ dir !! name = Some (YamlMapping data)
          ∧ data !! k = Some v
          ∧ ∀ name' data',
              matches_y_ml name' = true →
              dir !! name' = Some (YamlMapping data') →
              is_Some (data' !! k) → String.le name' name.
Proof. apply merged_lookup. Qed.

(** X2: the loop stops at the first file, in name order, that does not
    parse: the call then returns the empty mapping, whatever the files
    before it held, with the error that names this file; and it returns
    no error exactly when no file matching [*.y*ml] is unparsable. *)
Theorem first_unparsable_file_aborts_load
    gv service_name gv' moved merged_config error :
  load_service_config gv service_name = Returned gv' moved merged_config error →
  ∃ dir,
    gv_dirs gv' !! service_name = Some dir
    ∧ match error with
      | None =>
          ∀ name, matches_y_ml name = true → dir !! name ≠ Some YamlInvalid
      | Some e =>
          merged_config = ∅
          ∧ ∃ name,
              e = ErrorLoading name
              ∧ matches_y_ml name = true
              ∧ dir !! name = Some YamlInvalid
              ∧ ∀ name',
                  matches_y_ml name' = true →
                  dir !! name' = Some YamlInvalid → String.le name name'
      end.
Proof.
  intros Hr.
  destruct (load_service_config_Returned _ _ _ _ _ _ Hr)
    as (_ & _ & -> & _ & Hload).
  set (dir := mg_service_dir _) in *. exists dir.
  split; [apply lookup_insert_eq|].
  pose proof (load_files_error dir (loaded_files dir) ∅) as Herr.
  rewrite Hload in Herr. simpl in Herr.
  destruct error as [e|].
  - destruct Herr as (-> & l1 & name & l2 & Hsplit & -> & Hname & Hl1).
    split; [done|]. exists name.
    assert (name ∈ loaded_files dir) as Hin.
    { rewrite Hsplit. apply elem_of_app. right. left. }
    apply elem_of_loaded_files in Hin as [_ Hm].
    split; [done|]. split; [done|]. split; [done|].
    intros name' Hm' Hname'.
    assert (name' ∈ loaded_files dir) as Hin'.
    { apply elem_of_loaded_files. split; [by eexists|done]. }
    destruct (loaded_files_split dir l1 name l2 Hsplit) as [_ Hl2].
    rewrite Hsplit in Hin'.
    apply elem_of_app in Hin' as [Hin'|[->|Hin']%elem_of_cons].
    + rewrite Forall_forall in Hl1. by destruct (Hl1 name' Hin').
    + done.
    + by apply Hl2.
  - intros name Hm Hname. rewrite Forall_forall in Herr.
    apply (Herr name); [|done].
    apply elem_of_loaded_files. split; [by eexists|done].
Qed.

Lemma migrated_files gv service_name g :
  let m := foldl migrate_step
             {| mg_files := gv_files gv;
                mg_service_dir := default ∅ (gv_dirs gv !! service_name);
                mg_new_name := initial_new_name service_name;
                mg_moved := [] |}
             (legacy_files service_name) in
  mg_files m !! g
  = if bool_decide (g ∈ legacy_files service_name) then None
    else gv_files gv !! g.
Proof.
  intros m.
  destruct (migrate_foldl
              {| mg_files := gv_files gv;
                 mg_service_dir := default ∅ (gv_dirs gv !! service_name);
                 mg_new_name := initial_new_name service_name;
                 mg_moved := [] |}
              (legacy_files service_name) (NoDup_legacy_files _))
    as (_ & Hfiles & _).
  apply Hfiles.
Qed.

(** X3: a call that returned can be repeated: on the directory it left,
    the second call moves nothing, leaves the directory as it is and
    returns the same mapping and the same error. *)
Theorem second_call_changes_nothing
    gv service_name gv' moved merged_config error :
  load_service_config gv service_name = Returned gv' moved merged_config error →
  load_service_config gv' service_name = Returned gv' [] merged_config error.
Proof.
  intros Hr.
  destruct (load_service_config_Returned _ _ _ _ _ _ Hr)
    as (Hfile & Hdirs & -> & _ & Hload).
  pose proof (migrated_files gv service_name) as Hfiles. cbv zeta in Hfiles.
  set (m := foldl migrate_step _ _) in *.
  unfold load_service_config. cbn [gv_files gv_dirs].
  rewrite Hfiles, Hfile.
  rewrite (bool_decide_eq_false_2 (service_name ∈ _))
    by apply legacy_files_not_service.
  rewrite bool_decide_eq_false_2.
  2:{ intros (f & Hf & Hd)%Exists_exists.
      rewrite lookup_insert_ne in Hd.
      - rewrite Forall_forall in Hdirs. rewrite (Hdirs f Hf) in Hd.
        by destruct Hd.
      - intros ->. by apply legacy_files_not_service in Hf. }
  cbv zeta. rewrite lookup_insert_eq. cbn [default from_option].
  rewrite migrate_foldl_absent.
  2:{ apply Forall_forall. intros f Hf. cbn [mg_files].
      by rewrite Hfiles, bool_decide_eq_true_2. }
  cbn [mg_service_dir mg_files mg_moved]. unfold id. rewrite Hload.
  by rewrite insert_insert_eq.
Qed.

(** X4: after a call that returned, no legacy file of the service is
    left in [group_vars]; every other file of [group_vars] and every
    other service directory is as before; in the service directory only
    the target of the moves can differ. *)
Theorem migration_touches_nothing_else
    gv service_name gv' moved merged_config error :
  load_service_config gv service_name = Returned gv' moved merged_config error →
  (∀ f, f ∈ legacy_files service_name → gv_files gv' !! f = None)
  ∧ (∀ g, g ∉ legacy_files service_name → gv_files gv' !! g = gv_files gv !! g)
  ∧ (∀ other, other ≠ service_name → gv_dirs gv' !! other = gv_dirs gv !! other)
  ∧ ∃ dir,
      gv_dirs gv' !! service_name = Some dir
      ∧ ∀ name, name ∉ moved.*2 →
          dir !! name = default ∅ (gv_dirs gv !! service_name) !! name.
Proof.
  intros Hr.
  destruct (load_service_config_Returned _ _ _ _ _ _ Hr)
    as (Hfile & Hdirs & -> & -> & Hload).
  pose proof (migrated_files gv service_name) as Hfiles. cbv zeta in Hfiles.
  destruct (migrate_foldl
              {| mg_files := gv_files gv;
                 mg_service_dir := default ∅ (gv_dirs gv !! service_name);
                 mg_new_name := initial_new_name service_name;
                 mg_moved := [] |}
              (legacy_files service_name) (NoDup_legacy_files _))
    as (Hmoved & _ & Hdir).
  set (m := foldl migrate_step _ _) in *. cbn [gv_files gv_dirs].
  split; [|split; [|split]].
  - intros f Hf. by rewrite Hfiles, bool_decide_eq_true_2.
  - intros g Hg. by rewrite Hfiles, bool_decide_eq_false_2.
  - intros other Hne. by rewrite lookup_insert_ne.
  - exists (mg_service_dir m). split; [apply lookup_insert_eq|].
    intros name Hname. rewrite Hdir. cbn [mg_files mg_service_dir mg_new_name].
    destruct (last _ ≫= _) as [content|] eqn:Hlast; [|done].
    apply lookup_insert_ne. intros <-. apply Hname.
    rewrite Hmoved. cbn [mg_moved app mg_files mg_new_name].
    destruct (last _) as [f|] eqn:Hl; [|done].
    apply last_Some_elem_of in Hl.
    apply list_elem_of_fmap. eexists (_, _). split; [done|].
    apply list_elem_of_fmap. by exists f.
Qed.

(** X5: the legacy files that exist are all moved, in the order of
    [legacy_files], to one and the same target of the service directory
    ([vars.yml] for the service [all], otherwise [migrated_] followed
    by the name of the first of them), which ends up with the content of
    the last of them. *)
Theorem legacy_files_share_one_target
    gv service_name gv' moved merged_config error :
  load_service_config gv service_name = Returned gv' moved merged_config error →
  let existing :=
    filter (λ f, is_Some (gv_files gv !! f)) (legacy_files service_name) in
  let target :=
    default ("migrated_" +:+ hd "" existing) (initial_new_name service_name) in
  moved = (λ f, (f, target)) <$> existing
  ∧ ∀ f, last existing = Some f →
      ∃ dir, gv_dirs gv' !! service_name = Some dir
             ∧ dir !! target = gv_files gv !! f
             ∧ is_Some (gv_files gv !! f).
Proof.
  intros Hr existing target.
  destruct (load_service_config_Returned _ _ _ _ _ _ Hr)
    as (Hfile & Hdirs & -> & -> & Hload).
  destruct (migrate_foldl
              {| mg_files := gv_files gv;
                 mg_service_dir := default ∅ (gv_dirs gv !! service_name);
                 mg_new_name := initial_new_name service_name;
                 mg_moved := [] |}
              (legacy_files service_name) (NoDup_legacy_files _))
    as (Hmoved & _ & Hdir).
  cbn [mg_files mg_service_dir mg_new_name mg_moved app] in Hmoved, Hdir.
  fold existing in Hmoved, Hdir. fold target in Hmoved, Hdir.
  split; [done|]. intros f Hlast.
  eexists. split; [apply lookup_insert_eq|].
  rewrite Hdir, Hlast. cbn [mbind option_bind].
  assert (is_Some (gv_files gv !! f)) as [content Hc].
  { apply last_Some_elem_of in Hlast.
    by apply list_elem_of_filter in Hlast as [??]. }
  rewrite Hc. split; [apply lookup_insert_eq|by eexists].
Qed.

Lemma target_not_override (existing : list string) service_name :
  default ("migrated_" +:+ hd "" existing) (initial_new_name service_name)
  ≠ "wizzard.yml".
Proof.
  unfold initial_new_name. destruct (String.eqb _ _); simpl; [done|].
  unfold String.app. simpl. done.
Qed.

(** X6: loading after [save_service_config]: [wizzard.yml] holds the
    saved mapping, and a saved key is loaded back with the saved value
    whenever no file of the service directory whose name sorts after
    [wizzard.yml] binds it. *)
Theorem saved_config_is_loaded_back
    gv service_name (data : gmap string V) gv' moved merged_config :
  load_service_config (save_service_config gv service_name data) service_name
  = Returned gv' moved merged_config None →
  ∃ dir,
    gv_dirs gv' !! service_name = Some dir
    ∧ dir !! "wizzard.yml" = Some (YamlMapping data)
    ∧ ∀ k v,
        data !! k = Some v →
        (∀ name other,
           matches_y_ml name = true →
           dir !! name = Some (YamlMapping other) →
           is_Some (other !! k) → String.le name "wizzard.yml") →
        merged_config !! k = Some v.
Proof.
  intros Hr.
  destruct (merged_lookup _ _ _ _ _ Hr) as (dir & Hdir & Hiff).
  exists dir. split; [done|].
  assert (dir !! "wizzard.yml" = Some (YamlMapping data)) as Hw.
  { destruct (load_service_config_Returned _ _ _ _ _ _ Hr)
      as (_ & _ & -> & _ & _).
    cbn [gv_dirs] in Hdir. rewrite lookup_insert_eq in Hdir.
    injection Hdir as <-.
    match goal with
    | |- mg_service_dir (foldl migrate_step ?m0 _) !! _ = _ =>
        destruct (migrate_foldl m0 (legacy_files service_name)
                    (NoDup_legacy_files _)) as (_ & _ & ->)
    end.
    cbn [mg_files mg_service_dir mg_new_name].
    rewrite lookup_insert_eq. cbn [default from_option]. unfold id.
    destruct (last _ ≫= _).
    - rewrite lookup_insert_ne by apply target_not_override.
      apply lookup_insert_eq.
    - apply lookup_insert_eq. }
  split; [done|]. intros k v Hk Hmax. apply Hiff.
  exists "wizzard.yml", data. split; [done|]. done.
Qed.

Lemma saved_file_survives_migration
    (gv : group_vars V) service_name (data : gmap string V)
    gv' moved merged_config error :
  load_service_config (save_service_config gv service_name data) service_name
  = Returned gv' moved merged_config error →
  ∃ dir,
    gv_dirs gv' !! service_name = Some dir
    ∧ dir !! "wizzard.yml" = Some (YamlMapping data).
Proof.
  intros Hr.
  destruct (load_service_config_Returned _ _ _ _ _ _ Hr)
    as (_ & _ & -> & _ & _).
  eexists. split; [apply lookup_insert_eq|].
  match goal with
  | |- mg_service_dir (foldl migrate_step ?m0 _) !! _ = _ =>
      destruct (migrate_foldl m0 (legacy_files service_name)
                  (NoDup_legacy_files _)) as (_ & _ & ->)
  end.
  cbn [mg_files mg_service_dir mg_new_name save_service_config gv_dirs].
  rewrite lookup_insert_eq. cbn [default from_option]. unfold id.
  destruct (last _ ≫= _).
  - rewrite lookup_insert_ne by apply target_not_override.
    apply lookup_insert_eq.
  - apply lookup_insert_eq.
Qed.

End ServiceConfigLaws.

(** ** The network screen *)

Section NetworkFacts.
Import Network.
Context {V : Type} `{!YamlValue V} `{!IpAddress}.
Implicit Types (self : screen V) (file : user_config_file V)
  (m : mutation V) (d : Py.dict block).

(** *** Change detection *)

Lemma mutate_initial_data self m :
  initial_data (mutate self m) = initial_data self.
Proof.
  destruct m as [form|name form|name|net|index net|index]; simpl.
  - unfold on_add_cidr_button_pressed. by destruct (submit form) as [[??]|].
  - unfold action_edit_cidr. case_bool_decide; [done|].
    destruct (Py.get _ _); [|done]. by destruct (submit form) as [[??]|].
  - unfold on_delete_cidr_button_pressed. by destruct (Py.get _ _).
  - done.
  - unfold action_edit_provider_network. by destruct (_ !! _).
  - unfold on_delete_provider_network_button_pressed. by destruct (_ !! _).
Qed.

Lemma mutations_initial_data self (ms : list (mutation V)) :
  initial_data (foldl mutate self ms) = initial_data self.
Proof.
  revert self. induction ms as [|m ms IH]; intros self; simpl; [done|].
  by rewrite IH, mutate_initial_data.
Qed.

Lemma empty_baseline_no_changes self :
  is_empty (initial_data self) = true → has_unsaved_changes self = false.
Proof. unfold has_unsaved_changes. by intros ->. Qed.

Lemma network_empty_baseline self (ms : list (mutation V)) file :
  is_empty (initial_data self) = true →
  let self' := foldl mutate self ms in
  has_unsaved_changes self' = false
  ∧ action_save_configs file self' = (NoChangesToSave, file, self')
  ∧ asks_confirmation self' = false.
Proof.
  intros Hempty self'.
  assert (has_unsaved_changes self' = false) as Hno.
  { apply empty_baseline_no_changes. unfold self'.
    by rewrite mutations_initial_data. }
  split; [done|]. split; [|done].
  unfold action_save_configs. by rewrite Hno.
Qed.

Lemma mapping_eqb_refl (a : option (Py.dict string)) : mapping_eqb a a = true.
Proof. destruct a; simpl; [apply eqb_refl|done]. Qed.

Lemma overrides_eqb_refl (o : overrides V) : overrides_eqb o o = true.
Proof.
  unfold overrides_eqb. rewrite mapping_eqb_refl.
  by rewrite !bool_decide_eq_true_2.
Qed.

Lemma permuted_ranges_no_change self
    (mapping : Py.dict string) (global_overrides : overrides V) :
  doc_cidr_networks (initial_data self) = Some mapping →
  list_to_map mapping =@{gmap string string} list_to_map (current_cidrs self) →
  doc_global_overrides (initial_data self) = Some global_overrides →
  go_provider_networks global_overrides = Some (provider_networks self) →
  default [] (doc_used_ips (initial_data self))
    ≡ₚ concat (used_ips <$> (cidr_networks self).*2) →
  has_unsaved_changes self = false.
Proof.
  intros Hmap Hsame Hgo Hpn Hperm.
  unfold has_unsaved_changes.
  destruct (is_empty (initial_data self)); [done|].
  apply negb_false_iff. unfold document_eqb; simpl.
  rewrite Hmap, Hgo; simpl.
  rewrite !andb_true_iff. repeat split.
  - unfold Py.eqb. by apply bool_decide_eq_true.
  - apply bool_decide_eq_true. f_equal.
    destruct (doc_used_ips (initial_data self)) as [l|]; simpl in *.
    + by apply sorted_permutation_invariant.
    + symmetry in Hperm. apply Permutation_nil_r in Hperm.
      unfold current_used_ips, Py.values. by rewrite Hperm.
  - unfold overrides_eqb; simpl. rewrite mapping_eqb_refl, Hpn.
    by rewrite !bool_decide_eq_true_2.
  - by apply bool_decide_eq_true.
Qed.

(** C9: when the baseline holds the block mapping and the provider
    networks of the screen, and its used ranges are those of the screen
    in another order, no change is reported. *)
Theorem reordered_used_ips_are_no_change self
    (mapping : Py.dict string) (global_overrides : overrides V) :
  doc_cidr_networks (initial_data self) = Some mapping →
  list_to_map mapping =@{gmap string string} list_to_map (current_cidrs self) →
  doc_global_overrides (initial_data self) = Some global_overrides →
  go_provider_networks global_overrides = Some (provider_networks self) →
  default [] (doc_used_ips (initial_data self))
    ≡ₚ concat (used_ips <$> (cidr_networks self).*2) →
  has_unsaved_changes self = false.
Proof. apply permuted_ranges_no_change. Qed.

(** *** Saving *)

Lemma yaml_set_anchor_Some name heap ref heap' :
  yaml_set_anchor name heap ref = Some heap' →
  ∃ anchor items,
    heap !! ref = Some (CommentedMap anchor items)
    ∧ heap' = <[ref := CommentedMap (Some (name, true)) items]> heap.
Proof.
  unfold yaml_set_anchor. intros Hs.
  destruct (heap !! ref) as [[anchor items|items]|] eqn:Hl; simplify_eq.
  by exists anchor, items.
Qed.

Lemma update_config_data_Some self (config_data config_data' : yaml_graph V) :
  update_config_data self config_data = Some config_data' →
  ∃ ref heap',
    cd_cidr_networks config_data = Some ref
    ∧ heap' !! ref = Some (CommentedMap (Some ("cidr_networks", true)) (written_cidrs self))
    ∧ config_data' =
        {| cd_heap := heap';
           cd_cidr_networks := Some ref;
           cd_used_ips := Some (current_used_ips self);
           cd_global_overrides :=
             Some {| ov_cidr_networks := Some ref;
                     ov_provider_networks := Some (provider_networks self);
                     ov_rest := from_option ov_rest ∅ (cd_global_overrides config_data) |};
           cd_overrides_first :=
             from_option (λ _, cd_overrides_first config_data) false
                         (cd_global_overrides config_data);
           cd_rest := cd_rest config_data |}.
Proof.
  unfold update_config_data. intros Hu.
  destruct (cd_cidr_networks config_data) as [ref|] eqn:Href.
  - assert (∃ heap0, yaml_set_anchor "cidr_networks" (cd_heap config_data) ref = Some heap0)
      as [heap0 Hanchor].
    { destruct (cd_global_overrides config_data); simpl in Hu;
        destruct (yaml_set_anchor _ _ _); simplify_eq/=; eauto. }
    exists ref, (update (current_cidrs self) (clear heap0 ref) ref).
    split; [done|]. split.
    + apply yaml_set_anchor_Some in Hanchor as (anchor & items & Hl & ->).
      unfold update, clear.
      rewrite !list_lookup_alter, list_lookup_insert_eq
        by (by eapply lookup_lt_Some).
      by rewrite !decide_True by done.
    + destruct (cd_global_overrides config_data); simpl in Hu |- *;
        rewrite Hanchor in Hu; by simplify_eq/=.
  - exfalso.
    assert (yaml_set_anchor "cidr_networks"
              (cd_heap config_data ++ [PlainDict []])
              (length (cd_heap config_data)) = None) as Hnone.
    { unfold yaml_set_anchor. by rewrite lookup_app_r, Nat.sub_diag by lia. }
    destruct (cd_global_overrides config_data); simpl in Hu;
      rewrite Hnone in Hu; done.
Qed.

Lemma action_save_configs_saved file self file' self' :
  action_save_configs file self = (ChangesSaved, file', self') →
  ∃ config_data config_data',
    file = Yaml config_data
    ∧ has_unsaved_changes self = true
    ∧ update_config_data self config_data = Some config_data'
    ∧ file' = Yaml config_data'
    ∧ self' = (load_configs (Yaml config_data') self).2.
Proof.
  unfold action_save_configs. intros Hs.
  destruct (has_unsaved_changes self); simpl in Hs; [|done].
  destruct file as [| |config_data]; try done.
  destruct (update_config_data self config_data) as [config_data'|] eqn:Hu;
    simplify_eq. eauto 10.
Qed.

Lemma dump_shared_mapping (data : yaml_graph V) ref global_overrides name items :
  cd_cidr_networks data = Some ref →
  cd_global_overrides data = Some global_overrides →
  ov_cidr_networks global_overrides = Some ref →
  cd_heap data !! ref = Some (CommentedMap (Some (name, true)) items) →
  dump_cidr_networks data
  = if cd_overrides_first data
    then [(UnderGlobalOverrides, MappingNode (Some name) items);
          (TopLevel, AliasNode name)]
    else [(TopLevel, MappingNode (Some name) items);
          (UnderGlobalOverrides, AliasNode name)].
Proof.
  intros Htop Hgo Hnested Hobj.
  unfold dump_cidr_networks.
  assert (cidr_occurrences data
          = if cd_overrides_first data
            then [(UnderGlobalOverrides, ref); (TopLevel, ref)]
            else [(TopLevel, ref); (UnderGlobalOverrides, ref)]) as Hocc.
  { unfold cidr_occurrences. rewrite Htop, Hgo; simpl. rewrite Hnested.
    by destruct (cd_overrides_first data). }
  assert (dumped_anchor (cidr_occurrences data) ref
            (CommentedMap (Some (name, true)) items) = Some name) as Hanchor.
  { rewrite Hocc. unfold dumped_anchor.
    destruct (cd_overrides_first data);
      by rewrite !filter_cons_True, filter_nil by done. }
  rewrite Hocc.
  destruct (cd_overrides_first data); simpl; rewrite !Hobj, !Hanchor; simpl;
    by rewrite (bool_decide_eq_true_2 (ref ∈ [ref])) by apply list_elem_of_here.
Qed.

(** C3: after a save that succeeded, the top-level key and the key under
    [global_overrides] hold the same reference, to a mapping whose anchor
    [cidr_networks] is always dumped; the document is written with the
    anchored mapping at the key that comes first and an alias to it at
    the other key. *)
Theorem saved_mapping_is_shared file self file' self' :
  action_save_configs file self = (ChangesSaved, file', self') →
  ∃ data ref global_overrides,
    file' = Yaml data
    ∧ cd_cidr_networks data = Some ref
    ∧ cd_global_overrides data = Some global_overrides
    ∧ ov_cidr_networks global_overrides = Some ref
    ∧ cd_heap data !! ref
      = Some (CommentedMap (Some ("cidr_networks", true)) (written_cidrs self))
    ∧ dump_cidr_networks data
      = if cd_overrides_first data
        then [(UnderGlobalOverrides,
               MappingNode (Some "cidr_networks") (written_cidrs self));
              (TopLevel, AliasNode "cidr_networks")]
        else [(TopLevel,
               MappingNode (Some "cidr_networks") (written_cidrs self));
              (UnderGlobalOverrides, AliasNode "cidr_networks")].
Proof.
  intros Hs.
  apply action_save_configs_saved in Hs
    as (config_data & data & -> & _ & Hu & -> & _).
  apply update_config_data_Some in Hu as (ref & heap' & _ & Hl & ->).
  eexists _, ref, _. split; [done|]. split; [done|]. split; [done|].
  split; [done|]. split; [done|].
  by eapply dump_shared_mapping.
Qed.

(** *** Validation of a block edit *)

Lemma check_used_ips_None (net : network) value ranges :
  check_used_ips net value ranges = None ↔ Forall (endpoints_inside net) ranges.
Proof.
  induction ranges as [|r ranges IH]; simpl; [by split|].
  rewrite Forall_cons, <- IH. unfold endpoints_inside.
  destruct (ip_address (Py.first _)) as [a|];
    [|split; [done|by intros [(? & ? & ? & _) _]]].
  destruct (ip_address (Py.final _)) as [b|];
    [|split; [done|by intros [(? & ? & _ & ? & _) _]]].
  destruct (contains net a) eqn:Ea, (contains net b) eqn:Eb; simpl;
    (split; [try done|intros [(a' & b' & ? & ? & ? & ?) ?]; simplify_eq; congruence]).
  intros ?. split; [by exists a, b|done].
Qed.

Lemma check_used_ips_Some (net : network) name value ranges e :
  ip_network value = Some net →
  check_used_ips net value ranges = Some e →
  names_offender name value ranges e.
Proof.
  intros Hnet. induction ranges as [|r ranges IH]; simpl; [done|].
  destruct (ip_address (Py.first _)) as [a|] eqn:Ha.
  2:{ intros [= <-]. simpl. split; [done|]. exists r. split; [left|by left]. }
  destruct (ip_address (Py.final _)) as [b|] eqn:Hb.
  2:{ intros [= <-]. simpl. split; [done|]. exists r. split; [left|by right]. }
  destruct (negb (contains net a) || negb (contains net b)) eqn:Hout.
  - intros [= <-]. simpl. split; [done|]. split; [left|].
    exists net. split; [done|]. intros (a' & b' & Ha' & Hb' & Hin1 & Hin2).
    rewrite Ha in Ha'. rewrite Hb in Hb'. simplify_eq.
    rewrite Hin1, Hin2 in Hout. done.
  - intros He. specialize (IH He). destruct e; simpl in *; try done.
    + destruct IH as (? & ? & ?). split; [done|]. split; [by right|done].
    + destruct IH as (? & r' & ? & ?). split; [done|]. exists r'.
      split; [by right|done].
Qed.

Lemma on_save_inr (form : cidr_form) cidr_info :
  on_save form = inr cidr_info →
  let name := Py.strip (cidr_name_input form) in
  let value := Py.strip (cidr_value_input form) in
  let ranges :=
    filter (λ line, line ≠ "") (Py.strip <$> cidr_used_ips_lines form) in
  cidr_info = (name, {| cidr := value; used_ips := ranges |})
  ∧ acceptable name value ranges.
Proof.
  intros Hsave name value ranges.
  revert Hsave; unfold on_save; fold name value ranges; unfold acceptable.
  case_bool_decide; simpl; [done|].
  case_bool_decide; simpl; [done|].
  destruct (Py.contains_char _ value); simpl; [|done].
  destruct (ip_network value) as [net|] eqn:Hnet; [|done].
  destruct (check_used_ips net value ranges) eqn:Hcheck; [done|].
  intros [= <-]. split; [done|]. repeat split; try done.
  exists net. split; [done|]. by apply (check_used_ips_None net value).
Qed.

(** C5: [on_save] dismisses the dialog with the stripped name, the
    stripped cidr and the non-blank stripped ranges exactly when the
    validation rules hold; otherwise it shows an error that points at
    the empty field, the cidr, or a supplied range (or its unparsable
    endpoint), and the add and edit handlers leave the screen as it
    was. *)
Theorem on_save_validates (form : cidr_form) :
  let name := Py.strip (cidr_name_input form) in
  let value := Py.strip (cidr_value_input form) in
  let ranges :=
    filter (λ line, line ≠ "") (Py.strip <$> cidr_used_ips_lines form) in
  match on_save form with
  | inr cidr_info =>
      cidr_info = (name, {| cidr := value; used_ips := ranges |})
      ∧ acceptable name value ranges
  | inl e =>
      ¬ acceptable name value ranges
      ∧ names_offender name value ranges e
      ∧ (∀ self, on_add_cidr_button_pressed self (submit form) = self)
      ∧ (∀ self cidr_name, action_edit_cidr self cidr_name (submit form) = self)
  end.
Proof.
  intros name value ranges.
  assert (∀ e, on_save form = inl e →
            (∀ self, on_add_cidr_button_pressed self (submit form) = self)
            ∧ (∀ self cidr_name,
                 action_edit_cidr self cidr_name (submit form) = self))
    as Hsame.
  { intros e He. unfold submit. rewrite He. split; [done|].
    intros self cidr_name. unfold action_edit_cidr.
    case_bool_decide; [done|]. by destruct (Py.get _ _). }
  destruct (on_save form) as [e|cidr_info] eqn:Hsave.
  - split; [|split; [|by eapply Hsame]]; revert Hsave; unfold on_save;
      fold name value ranges; unfold acceptable.
    + case_bool_decide; simpl; [by intros _ (? & _)|].
      case_bool_decide; simpl; [by intros _ (_ & ? & _)|].
      destruct (Py.contains_char _ value); simpl;
        [|by intros _ (_ & _ & ? & _)].
      destruct (ip_network value) as [net|] eqn:Hnet;
        [|by intros _ (_ & _ & _ & ? & ? & _)].
      destruct (check_used_ips net value ranges) eqn:Hcheck; [|done].
      intros _ (_ & _ & _ & net' & Hnet' & Hall).
      assert (net' = net) as -> by congruence.
      apply (check_used_ips_None net value) in Hall. by rewrite Hall in Hcheck.
    + case_bool_decide; simpl; [intros [= <-]; simpl; by left|].
      case_bool_decide; simpl; [intros [= <-]; simpl; by right|].
      destruct (Py.contains_char _ value) eqn:Hslash; simpl;
        [|by intros [= <-]].
      destruct (ip_network value) as [net|] eqn:Hnet;
        [|by intros [= <-]].
      destruct (check_used_ips net value ranges) eqn:Hcheck; [|done].
      intros [= <-]. by eapply check_used_ips_Some.
  - by apply on_save_inr.
Qed.

(** *** What a save writes *)

Lemma save_writes_grouped_ranges file self file' self' :
  action_save_configs file self = (ChangesSaved, file', self') →
  ∃ data,
    file' = Yaml data
    ∧ doc_used_ips (view data)
      = Some (concat (used_ips <$> (cidr_networks self).*2)).
Proof.
  intros Hs.
  apply action_save_configs_saved in Hs
    as (config_data & data & -> & _ & Hu & -> & _).
  apply update_config_data_Some in Hu as (ref & heap' & _ & Hl & ->).
  by eexists.
Qed.

(** *** Dictionaries *)

Section DictFacts.
Context {A : Type}.
Implicit Types (dict : Py.dict A).

Lemma elem_of_set k v dict n b :
  (n, b) ∈ Py.set k v dict → (n = k ∧ b = v) ∨ (n, b) ∈ dict.
Proof.
  induction dict as [|[k' v'] dict IH]; csimpl.
  - intros Hin. apply list_elem_of_singleton in Hin. left. by simplify_eq.
  - destruct (String.eqb_spec k k') as [->|Hne]; intros Hin;
      apply elem_of_cons in Hin as [Heq|Hin].
    + left. by simplify_eq.
    + right. by right.
    + right. rewrite Heq. by left.
    + destruct (IH Hin) as [?|?]; [by left|right; by right].
Qed.

Lemma keys_set k v dict :
  Py.keys (Py.set k v dict)
  = if bool_decide (k ∈ Py.keys dict) then Py.keys dict
    else Py.keys dict ++ [k].
Proof.
  unfold Py.keys. induction dict as [|[k' v'] dict IH]; csimpl; [done|].
  destruct (String.eqb_spec k k') as [->|Hne]; csimpl.
  - by rewrite bool_decide_eq_true_2 by left.
  - rewrite IH. case_bool_decide as Hin.
    + by rewrite bool_decide_eq_true_2 by (by right).
    + rewrite bool_decide_eq_false_2; [done|].
      by intros [?|?]%elem_of_cons.
Qed.

Lemma NoDup_keys_set k v dict :
  NoDup (Py.keys dict) → NoDup (Py.keys (Py.set k v dict)).
Proof.
  intros Hnd. rewrite keys_set. case_bool_decide as Hin; [done|].
  apply NoDup_app. split; [done|]. split; [|apply NoDup_singleton].
  intros x Hx ->%list_elem_of_singleton. done.
Qed.

Lemma elem_of_remove k dict n b :
  (n, b) ∈ Py.remove k dict → (n, b) ∈ dict.
Proof.
  induction dict as [|[k' v'] dict IH]; csimpl; [done|].
  destruct (String.eqb_spec k k') as [->|Hne]; intros Hin.
  - by right.
  - apply elem_of_cons in Hin as [->|Hin]; [by left|right; auto].
Qed.

Lemma keys_remove_sublist k dict :
  Py.keys (Py.remove k dict) `sublist_of` Py.keys dict.
Proof.
  unfold Py.keys. induction dict as [|[k' v'] dict IH]; csimpl; [done|].
  destruct (String.eqb_spec k k') as [->|Hne]; csimpl.
  - by apply sublist_cons.
  - by apply sublist_skip.
Qed.

Lemma NoDup_keys_remove k dict :
  NoDup (Py.keys dict) → NoDup (Py.keys (Py.remove k dict)).
Proof.
  intros Hnd. eapply sublist_NoDup; [exact Hnd|apply keys_remove_sublist].
Qed.

Lemma elem_of_adjust (f : A → A) k dict n b :
  (n, b) ∈ Py.adjust f k dict →
  (n, b) ∈ dict ∨ (n = k ∧ ∃ b0, (k, b0) ∈ dict ∧ b = f b0).
Proof.
  induction dict as [|[k' v'] dict IH]; csimpl; [by left|].
  destruct (String.eqb_spec k k') as [->|Hne]; intros Hin;
    apply elem_of_cons in Hin as [Heq|Hin].
  - right. simplify_eq. split; [done|]. exists v'. split; [left|done].
  - left. by right.
  - left. rewrite Heq. by left.
  - destruct (IH Hin) as [?|(-> & b0 & ? & ->)]; [left; by right|].
    right. split; [done|]. exists b0. split; [by right|done].
Qed.

Lemma adjust_fmap {B} (g : A → B) (f : A → A) k dict :
  (∀ a, g (f a) = g a) →
  prod_map id g <$> Py.adjust f k dict = prod_map id g <$> dict.
Proof.
  intros Hg. induction dict as [|[k' v'] dict IH]; csimpl; [done|].
  destruct (String.eqb_spec k k') as [->|Hne]; csimpl.
  - by rewrite Hg.
  - by rewrite IH.
Qed.

(** [{}.update(d)] is [d] when the keys of [d] are distinct. *)
Lemma set_snoc k v dict :
  k ∉ Py.keys dict → Py.set k v dict = dict ++ [(k, v)].
Proof.
  unfold Py.keys. induction dict as [|[k' v'] dict IH]; csimpl; [done|].
  intros Hnin. apply not_elem_of_cons in Hnin as [Hne Hnin].
  destruct (String.eqb_spec k k') as [->|_]; [done|].
  by rewrite IH.
Qed.

Lemma update_distinct_keys (acc d : Py.dict A) :
  NoDup (Py.keys (acc ++ d)) →
  foldl (λ items '(k, v), Py.set k v items) acc d = acc ++ d.
Proof.
  revert acc. induction d as [|[k v] d IH]; intros acc Hnd; csimpl.
  - by rewrite app_nil_r.
  - rewrite set_snoc.
    + rewrite IH; rewrite <- app_assoc; done.
    + unfold Py.keys in *. rewrite fmap_app in Hnd; csimpl in Hnd.
      apply NoDup_app in Hnd as (_ & Hdisj & _).
      intros Hin. apply (Hdisj k Hin). by left.
Qed.
End DictFacts.

(** *** Loading: which block gets which range *)

Lemma find_network_Some (objs : list (string * network)) ip name :
  find_network objs ip = Some name →
  ∃ net, (name, net) ∈ objs ∧ contains net ip = true.
Proof.
  unfold find_network. intros Hf.
  destruct (List.find _ objs) as [[name' net]|] eqn:Hfind; simplify_eq/=.
  apply find_some in Hfind as [Hin Hc]. exists net.
  split; [by apply list_elem_of_In|done].
Qed.

Lemma find_network_is_Some (objs : list (string * network)) ip name net :
  (name, net) ∈ objs → contains net ip = true →
  is_Some (find_network objs ip).
Proof.
  unfold find_network. intros Hin Hc.
  destruct (List.find _ objs) as [[name' net']|] eqn:Hfind; [by eexists|].
  apply list_elem_of_In in Hin.
  pose proof (find_none _ _ Hfind _ Hin) as Hn. simpl in Hn. congruence.
Qed.

Lemma elem_of_cidr_net_objects (raw : Py.dict string) name net :
  (name, net) ∈ cidr_net_objects raw ↔
  ∃ cidr_str, (name, cidr_str) ∈ raw ∧ ip_network cidr_str = Some net.
Proof.
  unfold cidr_net_objects. rewrite list_elem_of_omap. split.
  - intros ([name' c] & Hin & Hsome).
    destruct (ip_network c) as [net'|] eqn:Hnet; simplify_eq/=. eauto.
  - intros (c & Hin & Hnet). exists (name, c). split; [done|].
    by rewrite Hnet.
Qed.

Lemma declared_associate objs d r :
  declared (associate objs d r) = declared d.
Proof.
  unfold associate, declared.
  destruct (ip_address _) as [ip|]; [|done].
  destruct (find_network objs ip) as [name|]; [|done].
  by apply adjust_fmap.
Qed.

Lemma declared_foldl objs d used :
  declared (foldl (associate objs) d used) = declared d.
Proof.
  revert d. induction used as [|r used IH]; intros d; simpl; [done|].
  by rewrite IH, declared_associate.
Qed.

Lemma declared_process_cidrs raw used :
  declared (process_cidrs raw used) = raw.
Proof.
  unfold process_cidrs. rewrite declared_foldl. unfold declared.
  rewrite <- list_fmap_compose. rewrite <- (list_fmap_id raw) at 2.
  apply list_fmap_ext. by intros ? [??] ?.
Qed.

Lemma current_cidrs_declared self :
  current_cidrs self = declared (cidr_networks self).
Proof.
  unfold current_cidrs, declared. apply list_fmap_ext. by intros ? [??] ?.
Qed.

Lemma placed_associate objs d r :
  placed objs d → placed objs (associate objs d r).
Proof.
  intros Hp. unfold associate.
  destruct (ip_address (first_ip_str r)) as [ip|] eqn:Hip; [|done].
  destruct (find_network objs ip) as [net_name|] eqn:Hfind; [|done].
  intros name b q Hin Hq.
  apply elem_of_adjust in Hin as [Hin|(-> & b0 & Hin & ->)]; [by eapply Hp|].
  simpl in Hq. apply elem_of_app in Hq as [Hq|Hq]; [by eapply Hp|].
  apply list_elem_of_singleton in Hq as ->. eauto.
Qed.

Lemma placed_process_cidrs raw used :
  placed (cidr_net_objects raw) (process_cidrs raw used).
Proof.
  unfold process_cidrs.
  assert (placed (cidr_net_objects raw)
            ((λ '(name, value), (name, {| cidr := value; used_ips := [] |}))
               <$> raw)) as Hinit.
  { intros name b q Hin Hq. apply list_elem_of_fmap in Hin as ([??] & ? & ?).
    simplify_eq/=. by apply not_elem_of_nil in Hq. }
  revert Hinit. generalize ((λ '(name, value), (name, {| cidr := value; used_ips := [] |}))
               <$> raw).
  induction used as [|r used IH]; intros d Hd; simpl; [done|].
  by apply IH, placed_associate.
Qed.

Lemma keys_declared d : Py.keys (declared d) = Py.keys d.
Proof.
  unfold Py.keys, declared. rewrite <- list_fmap_compose.
  apply list_fmap_ext. by intros ? [??] ?.
Qed.

Lemma elem_of_declared d name b :
  (name, b) ∈ d → (name, cidr b) ∈ declared d.
Proof.
  intros Hin. unfold declared. apply list_elem_of_fmap.
  by exists (name, b).
Qed.

Lemma distinct_keys_functional {A} (dict : Py.dict A) k v1 v2 :
  NoDup (Py.keys dict) → (k, v1) ∈ dict → (k, v2) ∈ dict → v1 = v2.
Proof.
  unfold Py.keys. induction dict as [|[k' v'] dict IH]; csimpl.
  - by intros _ ?%not_elem_of_nil.
  - intros [Hnin Hnd]%NoDup_cons [Heq1|Hin1]%elem_of_cons
      [Heq2|Hin2]%elem_of_cons; simplify_eq.
    + done.
    + destruct Hnin. apply list_elem_of_fmap. by exists (k', v2).
    + destruct Hnin. apply list_elem_of_fmap. by exists (k', v1).
    + by apply IH.
Qed.

(** After a load every block holds ranges of its own only. *)
Lemma process_cidrs_own raw used :
  NoDup (Py.keys raw) → blocks_own_their_ranges (process_cidrs raw used).
Proof.
  intros Hnd. split.
  - by rewrite <- keys_declared, declared_process_cidrs.
  - intros name b Hin. apply Forall_forall. intros q Hq.
    destruct (placed_process_cidrs raw used name b q Hin Hq)
      as (ip & Hip & Hfind).
    apply find_network_Some in Hfind as (net & Hobj & Hc).
    apply elem_of_cidr_net_objects in Hobj as (c & Hraw & Hnet).
    apply elem_of_declared in Hin. rewrite declared_process_cidrs in Hin.
    exists ip, net. split; [done|]. split; [|done].
    by rewrite (distinct_keys_functional raw name (cidr b) c Hnd Hin Hraw).
Qed.

(** C2: a range whose first address parses but lies in the network of no
    declared block is, after the load, in no block's list. The loaded
    screen then reports unsaved changes when the range was in the
    file, and the [used_ips] that a save writes does not hold it. *)
Theorem orphaned_range_is_dropped (config : yaml_graph V) self r ip :
  ip_address (first_ip_str r) = Some ip →
  (∀ name cidr_str net,
     (name, cidr_str) ∈ default [] (doc_cidr_networks (view config)) →
     ip_network cidr_str = Some net → contains net ip = false) →
  let self' := (load_configs (Yaml config) self).2 in
  (∀ name b, (name, b) ∈ cidr_networks self' → r ∉ used_ips b)
  ∧ (r ∈ default [] (doc_used_ips (view config)) →
     has_unsaved_changes self' = true)
  ∧ (∀ file file' self'',
       action_save_configs file self' = (ChangesSaved, file', self'') →
       ∃ data written,
         file' = Yaml data
         ∧ doc_used_ips (view data) = Some written
         ∧ r ∉ written).
Proof.
  intros Hip Horphan self'.
  assert (∀ name b, (name, b) ∈ cidr_networks self' → r ∉ used_ips b)
    as Hdropped.
  { intros name b Hin Hr. simpl in Hin.
    destruct (placed_process_cidrs _ _ name b r Hin Hr) as (ip' & Hip' & Hfind).
    assert (ip' = ip) as -> by congruence.
    apply find_network_Some in Hfind as (net & Hobj & Hc).
    apply elem_of_cidr_net_objects in Hobj as (c & Hraw & Hnet).
    rewrite (Horphan name c net Hraw Hnet) in Hc. done. }
  assert (r ∉ current_used_ips self') as Hnot.
  { unfold current_used_ips, Py.values. intros Hin.
    apply list_elem_of_In, in_concat in Hin as (l & Hl & Hr).
    apply list_elem_of_In in Hl, Hr.
    apply list_elem_of_fmap in Hl as (b & -> & Hb).
    apply list_elem_of_fmap in Hb as ([name b'] & -> & Hb).
    by eapply Hdropped. }
  split; [done|]. split.
  - intros Hraw. unfold has_unsaved_changes.
    destruct (doc_used_ips (view config)) as [l|] eqn:Hused;
      [|by apply not_elem_of_nil in Hraw]. simpl in Hraw.
    assert (is_empty (initial_data self') = false) as ->.
    { unfold is_empty. change (initial_data self') with (view config).
      rewrite Hused.
      rewrite (bool_decide_eq_false_2 (Some l = None)) by done.
      by rewrite andb_false_r. }
    apply negb_true_iff. unfold document_eqb.
    apply andb_false_iff. left. apply andb_false_iff. left.
    apply andb_false_iff. right.
    change (initial_data self') with (view config). cbn [doc_used_ips].
    rewrite Hused.
    apply bool_decide_eq_false_2. intros [= Heq].
    apply Hnot. rewrite <- (sorted_Permutation (current_used_ips self')).
    rewrite <- Heq. by rewrite sorted_Permutation.
  - intros file file' self'' Hs.
    apply save_writes_grouped_ranges in Hs as (data & -> & Hw).
    exists data, (current_used_ips self'). done.
Qed.

(** *** Validated mutations keep every range in its block *)

Lemma first_range_part r : Py.first (range_parts r) = first_ip_str r.
Proof. unfold range_parts, first_ip_str. apply first_fmap, split_not_nil. Qed.

Lemma endpoints_inside_range_in_block b net r :
  ip_network (cidr b) = Some net → endpoints_inside net r → range_in_block b r.
Proof.
  intros Hnet (start_ip & end_ip & Hs & _ & Hc & _).
  rewrite first_range_part in Hs. by exists start_ip, net.
Qed.

Lemma submit_Some form name data :
  submit form = Some (name, data) → Forall (range_in_block data) (used_ips data).
Proof.
  unfold submit. destruct (on_save form) as [e|info] eqn:Hsave; [done|].
  intros [= ->]. apply on_save_inr in Hsave as [[= -> ->] Hacc].
  destruct Hacc as (_ & _ & _ & net & Hnet & Hall). simpl.
  eapply Forall_impl; [exact Hall|]. intros r Hr.
  by eapply endpoints_inside_range_in_block.
Qed.

Lemma set_own d name data :
  blocks_own_their_ranges d →
  Forall (range_in_block data) (used_ips data) →
  blocks_own_their_ranges (Py.set name data d).
Proof.
  intros [Hnd Hown] Hdata. split; [by apply NoDup_keys_set|].
  intros n b [[-> ->]|Hin]%elem_of_set; [done|by eapply Hown].
Qed.

Lemma remove_own d name :
  blocks_own_their_ranges d → blocks_own_their_ranges (Py.remove name d).
Proof.
  intros [Hnd Hown]. split; [by apply NoDup_keys_remove|].
  intros n b Hin%elem_of_remove. by eapply Hown.
Qed.

Lemma mutate_own self m :
  blocks_own_their_ranges (cidr_networks self) →
  blocks_own_their_ranges (cidr_networks (mutate self m)).
Proof.
  intros Hown.
  destruct m as [form|name form|name|net|index net|index]; simpl.
  - unfold on_add_cidr_button_pressed.
    destruct (submit form) as [[n data]|] eqn:Hsub; [|done].
    simpl. by eapply set_own, submit_Some.
  - unfold action_edit_cidr. case_bool_decide; [done|].
    destruct (Py.get _ _); [|done].
    destruct (submit form) as [[n data]|] eqn:Hsub; [|done].
    simpl. by eapply set_own, submit_Some.
  - unfold on_delete_cidr_button_pressed.
    destruct (Py.get _ _); [|done]. simpl. by apply remove_own.
  - done.
  - unfold action_edit_provider_network. by destruct (_ !! _).
  - unfold on_delete_provider_network_button_pressed. by destruct (_ !! _).
Qed.

Lemma mutations_own self (ms : list (mutation V)) :
  blocks_own_their_ranges (cidr_networks self) →
  blocks_own_their_ranges (cidr_networks (foldl mutate self ms)).
Proof.
  revert self. induction ms as [|m ms IH]; intros self Hown; simpl; [done|].
  by apply IH, mutate_own.
Qed.

Lemma load_configs_own (config : yaml_graph V) self :
  NoDup (Py.keys (default [] (doc_cidr_networks (view config)))) →
  blocks_own_their_ranges (cidr_networks (load_configs (Yaml config) self).2).
Proof. intros Hnd. by apply process_cidrs_own. Qed.

(** *** Reloading what was saved *)

Lemma adjust_append_Permutation d name r :
  name ∈ Py.keys d →
  concat (used_ips <$> (Py.adjust (append_range r) name d).*2)
  ≡ₚ r :: concat (used_ips <$> d.*2).
Proof.
  unfold Py.keys. induction d as [|[k b] d IH]; csimpl.
  - by intros ?%not_elem_of_nil.
  - intros Hin. destruct (String.eqb_spec name k) as [->|Hne]; csimpl.
    + rewrite <- app_assoc. simpl. symmetry. apply Permutation_middle.
    + apply elem_of_cons in Hin as [?|Hin]; [done|].
      rewrite (IH Hin). symmetry. apply Permutation_middle.
Qed.

Lemma associate_all_Permutation objs d used :
  (∀ r, r ∈ used →
     ∃ ip name, ip_address (first_ip_str r) = Some ip
                ∧ find_network objs ip = Some name
                ∧ name ∈ Py.keys d) →
  concat (used_ips <$> (foldl (associate objs) d used).*2)
  ≡ₚ concat (used_ips <$> d.*2) ++ used.
Proof.
  revert d. induction used as [|r used IH]; intros d Hall; simpl.
  - by rewrite app_nil_r.
  - destruct (Hall r) as (ip & name & Hip & Hfind & Hkey); [by left|].
    rewrite IH.
    + unfold associate. rewrite Hip, Hfind.
      rewrite adjust_append_Permutation by done.
      simpl. apply Permutation_middle.
    + intros r' Hr'. destruct (Hall r') as (ip' & name' & ? & ? & ?);
        [by right|]. exists ip', name'. split; [done|]. split; [done|].
      by rewrite <- keys_declared, declared_associate, keys_declared.
Qed.

Lemma fresh_blocks_no_ranges (raw : Py.dict string) :
  concat (used_ips <$>
            ((λ '(name, value), (name, {| cidr := value; used_ips := [] |}))
               <$> raw).*2) = [].
Proof. induction raw as [|[??] raw IH]; csimpl; done. Qed.

Lemma fresh_blocks_keys (raw : Py.dict string) :
  Py.keys ((λ '(name, value), (name, {| cidr := value; used_ips := [] |}))
             <$> raw) = Py.keys raw.
Proof.
  unfold Py.keys. rewrite <- list_fmap_compose.
  apply list_fmap_ext. by intros ? [??] ?.
Qed.

(** Loading the blocks and ranges of a screen whose blocks own their
    ranges gives every range to some block. *)
Lemma process_own_Permutation d :
  blocks_own_their_ranges d →
  concat (used_ips <$>
            (process_cidrs (declared d) (concat (used_ips <$> d.*2))).*2)
  ≡ₚ concat (used_ips <$> d.*2).
Proof.
  intros [Hnd Hown]. unfold process_cidrs.
  rewrite associate_all_Permutation.
  - by rewrite fresh_blocks_no_ranges.
  - intros r Hr.
    apply list_elem_of_In, in_concat in Hr as (l & Hl & Hr).
    apply list_elem_of_In in Hl, Hr.
    apply list_elem_of_fmap in Hl as (b & -> & Hb).
    apply list_elem_of_fmap in Hb as ([n b'] & -> & Hb). simpl in Hr.
    pose proof (Hown n b' Hb) as Hall.
    rewrite Forall_forall in Hall.
    destruct (Hall r Hr) as (ip & net & Hip & Hnet & Hc).
    assert ((n, net) ∈ cidr_net_objects (declared d)) as Hobj.
    { apply elem_of_cidr_net_objects. exists (cidr b').
      split; [by apply elem_of_declared|done]. }
    destruct (find_network_is_Some _ ip n net Hobj Hc) as [name Hfind].
    exists ip, name. split; [done|]. split; [done|].
    apply find_network_Some in Hfind as (net' & Hobj' & _).
    apply elem_of_cidr_net_objects in Hobj' as (c & Hraw & _).
    rewrite fresh_blocks_keys. unfold Py.keys.
    apply list_elem_of_fmap. by exists (name, c).
Qed.

Lemma written_cidrs_distinct self :
  NoDup (Py.keys (cidr_networks self)) →
  written_cidrs self = current_cidrs self.
Proof.
  intros Hnd. unfold written_cidrs.
  rewrite (update_distinct_keys [] (current_cidrs self)); [done|].
  simpl. by rewrite current_cidrs_declared, keys_declared.
Qed.

Lemma save_then_load_clean file self file' self' :
  blocks_own_their_ranges (cidr_networks self) →
  action_save_configs file self = (ChangesSaved, file', self') →
  ∃ data,
    file' = Yaml data
    ∧ self' = (load_configs file' self).2
    ∧ initial_data self' = view data
    ∧ has_unsaved_changes self' = false.
Proof.
  intros Hown Hs.
  apply action_save_configs_saved in Hs
    as (config_data & data & -> & _ & Hu & -> & ->).
  apply update_config_data_Some in Hu as (ref & heap' & _ & Hl & ->).
  eexists. split; [done|]. split; [done|]. split; [done|].
  rewrite written_cidrs_distinct in Hl by apply Hown.
  eapply (permuted_ranges_no_change _ (current_cidrs self)).
  - simpl. unfold read_mapping. simpl. by rewrite Hl.
  - simpl. unfold read_mapping. simpl. rewrite Hl. simpl.
    rewrite (current_cidrs_declared (Screen _ _ _)). simpl.
    by rewrite declared_process_cidrs.
  - done.
  - done.
  - simpl. unfold read_mapping. simpl. rewrite Hl. simpl.
    rewrite current_cidrs_declared. unfold current_used_ips, Py.values.
    symmetry. by apply process_own_Permutation.
Qed.

(** C4: load a document, apply any mutations, save: when the save
    succeeds the screen has been reloaded from the file just written,
    its baseline is that file, and it reports no unsaved changes. *)
Theorem save_then_load_is_clean (config : yaml_graph V)
    (ms : list (mutation V)) file file' self' :
  NoDup (Py.keys (default [] (doc_cidr_networks (view config)))) →
  let self := foldl mutate (load_configs (Yaml config) new_screen).2 ms in
  action_save_configs file self = (ChangesSaved, file', self') →
  ∃ data,
    file' = Yaml data
    ∧ self' = (load_configs file' self).2
    ∧ initial_data self' = view data
    ∧ has_unsaved_changes self' = false.
Proof.
  intros Hnd self. apply save_then_load_clean.
  by apply mutations_own, load_configs_own.
Qed.

End NetworkFacts.

(** ** The network screen: loading, change detection and saving *)

Section NetworkLaws.
Import Network.
Context {V : Type} `{!YamlValue V} `{!IpAddress}.
Implicit Types (self : screen V) (file : user_config_file V)
  (m : mutation V) (d : Py.dict block).

(** *** Loading, in closed form *)

Lemma associate_owner objs d r :
  associate objs d r
  = match owner objs r with
    | Some net_name => Py.adjust (append_range r) net_name d
    | None => d
    end.
Proof. unfold associate, owner. by destruct (ip_address _). Qed.

Lemma adjust_absent {A} (f : A → A) k (dict : Py.dict A) :
  k ∉ Py.keys dict → Py.adjust f k dict = dict.
Proof.
  unfold Py.keys. induction dict as [|[k' v'] dict IH]; csimpl; [done|].
  intros [Hne Hnin]%not_elem_of_cons.
  destruct (String.eqb_spec k k') as [->|_]; [done|]. by rewrite IH.
Qed.

Lemma adjust_distinct_keys {A} (f : A → A) k (dict : Py.dict A) :
  NoDup (Py.keys dict) →
  Py.adjust f k dict
  = (λ '(n, b), (n, if String.eqb k n then f b else b)) <$> dict.
Proof.
  unfold Py.keys. induction dict as [|[k' v'] dict IH]; csimpl; [done|].
  intros [Hnin Hnd]%NoDup_cons.
  destruct (String.eqb_spec k k') as [->|Hne].
  - f_equal. rewrite <- (adjust_absent f k' dict) at 1 by done.
    by apply IH.
  - f_equal. by apply IH.
Qed.

Lemma process_cidrs_closed_form (raw : Py.dict string) (used : list string) :
  NoDup (Py.keys raw) →
  process_cidrs raw used
  = (λ '(name, value),
       (name, {| cidr := value;
                 used_ips := filter (λ r, owner (cidr_net_objects raw) r = Some name)
                                    used |}))
      <$> raw.
Proof.
  intros Hnd. unfold process_cidrs.
  induction used as [|r used IH] using rev_ind; simpl.
  { apply list_fmap_ext. by intros ? [??] ?. }
  rewrite foldl_app. simpl. rewrite IH. clear IH.
  rewrite associate_owner.
  destruct (owner (cidr_net_objects raw) r) as [net_name|] eqn:Howner.
  - rewrite adjust_distinct_keys.
    2:{ unfold Py.keys. rewrite <- list_fmap_compose.
        erewrite list_fmap_ext; [exact Hnd|]. by intros ? [??] ?. }
    rewrite <- list_fmap_compose. apply list_fmap_ext.
    intros i [name value] Hi. simpl. f_equal.
    rewrite filter_app.
    destruct (String.eqb_spec net_name name) as [->|Hne].
    + unfold append_range. simpl. by rewrite filter_cons_True, filter_nil.
    + rewrite filter_cons_False, filter_nil, app_nil_r; [done|].
      rewrite Howner. by intros [= ?].
  - apply list_fmap_ext. intros i [name value] Hi. simpl. f_equal. f_equal.
    rewrite filter_app, filter_cons_False, filter_nil, app_nil_r; [done|].
    by rewrite Howner.
Qed.

(** X7: what [load_configs] makes of a document whose block names are
    distinct: the blocks of the file in declared order, each with its
    cidr as written (parsable or not) and with exactly the ranges of the
    file, in file order, whose first address falls first into that
    block. *)
Theorem load_groups_ranges_by_first_match (config : yaml_graph V) self :
  let cidr_networks_raw := default [] (doc_cidr_networks (view config)) in
  let used_ips_raw := default [] (doc_used_ips (view config)) in
  NoDup (Py.keys cidr_networks_raw) →
  cidr_networks (load_configs (Yaml config) self).2
  = (λ '(name, value),
       (name, {| cidr := value;
                 used_ips :=
                   filter (λ r, owner (cidr_net_objects cidr_networks_raw) r
                                = Some name)
                          used_ips_raw |}))
      <$> cidr_networks_raw.
Proof. intros raw used Hnd. by apply process_cidrs_closed_form. Qed.


(** *** Change detection, exactly *)

Lemma sorted_eq_Permutation l1 l2 : Py.sorted l1 = Py.sorted l2 → l1 ≡ₚ l2.
Proof.
  intros Heq. rewrite <- (sorted_Permutation l1), Heq.
  apply sorted_Permutation.
Qed.

Lemma no_changes_inv self :
  has_unsaved_changes self = false →
  is_empty (initial_data self) = false →
  ∃ mapping global_overrides,
    doc_cidr_networks (initial_data self) = Some mapping
    ∧ list_to_map mapping =@{gmap string string} list_to_map (current_cidrs self)
    ∧ doc_global_overrides (initial_data self) = Some global_overrides
    ∧ go_provider_networks global_overrides = Some (provider_networks self)
    ∧ default [] (doc_used_ips (initial_data self)) ≡ₚ current_used_ips self.
Proof.
  unfold has_unsaved_changes. intros Hno Hne. rewrite Hne in Hno.
  apply negb_false_iff in Hno. unfold document_eqb in Hno. simpl in Hno.
  apply andb_true_iff in Hno as [Hno _].
  apply andb_true_iff in Hno as [Hno Hgo].
  apply andb_true_iff in Hno as [Hmap Hused].
  destruct (doc_cidr_networks (initial_data self)) as [mapping|]; [|done].
  destruct (doc_global_overrides (initial_data self)) as [go|]; [|done].
  exists mapping, go. split; [done|]. split.
  { simpl in Hmap. unfold Py.eqb in Hmap. by apply bool_decide_eq_true in Hmap. }
  split; [done|]. split.
  { unfold overrides_eqb in Hgo. simpl in Hgo.
    apply andb_true_iff in Hgo as [Hgo _].
    apply andb_true_iff in Hgo as [_ Hpn].
    by apply bool_decide_eq_true in Hpn. }
  apply bool_decide_eq_true in Hused. injection Hused as Hused.
  destruct (doc_used_ips (initial_data self)) as [l|]; simpl.
  - by apply sorted_eq_Permutation.
  - apply sorted_eq_Permutation. rewrite <- Hused. done.
Qed.

(** X8: [has_unsaved_changes] is false exactly when the baseline is
    empty, or the baseline has the block mapping with the names and cidrs
    of the screen (in any order), the provider networks of the screen
    (in the same order), and the used ranges of the screen up to
    order. *)
Theorem change_detection_is_exact self :
  has_unsaved_changes self = false ↔
  is_empty (initial_data self) = true
  ∨ ∃ mapping global_overrides,
      doc_cidr_networks (initial_data self) = Some mapping
      ∧ list_to_map mapping =@{gmap string string} list_to_map (current_cidrs self)
      ∧ doc_global_overrides (initial_data self) = Some global_overrides
      ∧ go_provider_networks global_overrides = Some (provider_networks self)
      ∧ default [] (doc_used_ips (initial_data self)) ≡ₚ current_used_ips self.
Proof.
  split.
  - intros Hno. destruct (is_empty (initial_data self)) eqn:Hempty; [by left|].
    right. by apply no_changes_inv.
  - intros [Hempty|(mapping & go & Hmap & Hsame & Hgo & Hpn & Hperm)].
    + by apply empty_baseline_no_changes.
    + by eapply permuted_ranges_no_change.
Qed.

(** *** A freshly loaded document *)

Lemma owner_Some objs r name :
  owner objs r = Some name ↔
  ∃ ip, ip_address (first_ip_str r) = Some ip ∧ find_network objs ip = Some name.
Proof.
  unfold owner. destruct (ip_address _) as [ip|]; simpl.
  - split; [by exists ip|]. by intros (? & [= <-] & ?).
  - split; [done|]. by intros (? & ? & _).
Qed.

Lemma owner_declared (raw : Py.dict string) r name :
  owner (cidr_net_objects raw) r = Some name → name ∈ Py.keys raw.
Proof.
  intros (ip & _ & Hfind)%owner_Some.
  apply find_network_Some in Hfind as (net & Hobj & _).
  apply elem_of_cidr_net_objects in Hobj as (c & Hraw & _).
  unfold Py.keys. apply list_elem_of_fmap. by exists (name, c).
Qed.

Lemma elem_of_current_used_ips self r :
  r ∈ current_used_ips self ↔
  ∃ name b, (name, b) ∈ cidr_networks self ∧ r ∈ used_ips b.
Proof.
  unfold current_used_ips, Py.values. split.
  - intros Hin. apply list_elem_of_In, in_concat in Hin as (l & Hl & Hr).
    apply list_elem_of_In in Hl, Hr.
    apply list_elem_of_fmap in Hl as (b & -> & Hb).
    apply list_elem_of_fmap in Hb as ([name b'] & -> & Hb). by exists name, b'.
  - intros (name & b & Hin & Hr). apply list_elem_of_In, in_concat.
    exists (used_ips b). split; apply list_elem_of_In; [|done].
    apply list_elem_of_fmap. exists b. split; [done|].
    apply list_elem_of_fmap. by exists (name, b).
Qed.

(** X9: a document that has the block mapping and the provider
    networks is reported unchanged right after the load exactly when
    every used range of the file is given to some block. *)
Theorem fresh_load_is_clean_iff (config : yaml_graph V) self
    (mapping : Py.dict string) (global_overrides : overrides V)
    (provider_networks_raw : list V) :
  doc_cidr_networks (view config) = Some mapping →
  doc_global_overrides (view config) = Some global_overrides →
  go_provider_networks global_overrides = Some provider_networks_raw →
  has_unsaved_changes (load_configs (Yaml config) self).2 = false
  ↔ Forall (λ r, is_Some (owner (cidr_net_objects mapping) r))
           (default [] (doc_used_ips (view config))).
Proof.
  intros Hmap Hgo Hpn.
  set (self' := (load_configs (Yaml config) self).2).
  assert (cidr_networks self'
          = process_cidrs mapping (default [] (doc_used_ips (view config))))
    as Hcidrs.
  { unfold self', load_configs. cbv zeta. cbn [snd cidr_networks].
    by rewrite Hmap. }
  split.
  - intros Hno. apply Forall_forall. intros r Hr.
    apply no_changes_inv in Hno as (? & ? & _ & _ & _ & _ & Hperm).
    2:{ unfold is_empty. change (initial_data self') with (view config).
        rewrite Hmap. by rewrite (bool_decide_eq_false_2 (Some _ = None)). }
    change (initial_data self') with (view config) in Hperm.
    rewrite Hperm in Hr.
    apply elem_of_current_used_ips in Hr as (name & b & Hin & Hr).
    rewrite Hcidrs in Hin.
    destruct (placed_process_cidrs _ _ name b r Hin Hr) as (ip & Hip & Hfind).
    exists name. apply owner_Some. by exists ip.
  - intros Hall.
    eapply (permuted_ranges_no_change self' mapping global_overrides).
    + done.
    + rewrite current_cidrs_declared, Hcidrs. by rewrite declared_process_cidrs.
    + done.
    + unfold self', load_configs. cbv zeta. cbn [snd provider_networks].
      rewrite Hgo. simpl. by rewrite Hpn.
    + change (initial_data self') with (view config).
      rewrite Hcidrs. unfold process_cidrs.
      rewrite associate_all_Permutation.
      * by rewrite fresh_blocks_no_ranges.
      * intros r Hr. rewrite Forall_forall in Hall.
        destruct (Hall r Hr) as [name Howner].
        pose proof (owner_declared _ _ _ Howner) as Hkey.
        apply owner_Some in Howner as (ip & Hip & Hfind).
        exists ip, name. split; [done|]. split; [done|].
        by rewrite fresh_blocks_keys.
Qed.

(** *** Editing a block under another name *)

Lemma get_set_eq {A} k (v : A) (dict : Py.dict A) :
  Py.get k (Py.set k v dict) = Some v.
Proof.
  induction dict as [|[k' v'] dict IH]; simpl.
  - by rewrite String.eqb_refl.
  - destruct (String.eqb_spec k k') as [->|Hne]; simpl.
    + by rewrite String.eqb_refl.
    + by destruct (String.eqb_spec k k').
Qed.

Lemma get_set_ne {A} k k' (v : A) (dict : Py.dict A) :
  k ≠ k' → Py.get k' (Py.set k v dict) = Py.get k' dict.
Proof.
  intros Hne. induction dict as [|[k'' v''] dict IH]; simpl.
  - by destruct (String.eqb_spec k' k) as [->|_].
  - destruct (String.eqb_spec k k'') as [->|Hne']; simpl.
    + by destruct (String.eqb_spec k' k'') as [->|_].
    + by rewrite IH.
Qed.

Lemma get_Some_elem_of {A} k (v : A) (dict : Py.dict A) :
  Py.get k dict = Some v → (k, v) ∈ dict.
Proof.
  induction dict as [|[k' v'] dict IH]; simpl; [done|].
  destruct (String.eqb_spec k k') as [->|Hne].
  - intros [= ->]. left.
  - intros Hg. right. by apply IH.
Qed.

Lemma get_None_keys {A} k (dict : Py.dict A) :
  Py.get k dict = None ↔ k ∉ Py.keys dict.
Proof.
  unfold Py.keys. induction dict as [|[k' v'] dict IH]; csimpl.
  - split; [intros _; apply not_elem_of_nil|done].
  - destruct (String.eqb_spec k k') as [->|Hne].
    + split; [done|]. intros Hnin. destruct Hnin. left.
    + rewrite IH, not_elem_of_cons. split; [by intros ?|by intros [_ ?]].
Qed.

Lemma elem_of_get {A} k (v : A) (dict : Py.dict A) :
  NoDup (Py.keys dict) → (k, v) ∈ dict → Py.get k dict = Some v.
Proof.
  intros Hnd Hin. destruct (Py.get k dict) as [v'|] eqn:Hg.
  - apply get_Some_elem_of in Hg.
    by rewrite (distinct_keys_functional dict k v v' Hnd Hin Hg).
  - apply get_None_keys in Hg. destruct Hg.
    unfold Py.keys. apply list_elem_of_fmap. by exists (k, v).
Qed.

(** X10: submitting the edit dialog of a block under another name does
    not rename the block: the block keeps its name and its data, and the
    submitted data is stored under the new name, as a new last block
    when the name was free. *)
Theorem edit_under_new_name_keeps_old_block
    self (cidr_name : string) (form : cidr_form) (name : string) (data old : block) :
  cidr_name ≠ "" →
  Py.get cidr_name (cidr_networks self) = Some old →
  submit form = Some (name, data) →
  name ≠ cidr_name →
  let self' := action_edit_cidr self cidr_name (submit form) in
  Py.get cidr_name (cidr_networks self') = Some old
  ∧ Py.get name (cidr_networks self') = Some data
  ∧ (Py.get name (cidr_networks self) = None →
     Py.keys (cidr_networks self') = Py.keys (cidr_networks self) ++ [name]).
Proof.
  intros Hne Hold Hsub Hname self'. unfold self', action_edit_cidr.
  rewrite bool_decide_eq_false_2 by done. rewrite Hold, Hsub. simpl.
  split; [by rewrite get_set_ne|]. split; [apply get_set_eq|].
  intros Hfresh. rewrite keys_set. apply get_None_keys in Hfresh.
  by rewrite bool_decide_eq_false_2.
Qed.


(** *** Saving: when it goes through and what it writes *)

Lemma update_config_data_is_Some self (config_data : yaml_graph V) ref anchor items :
  cd_cidr_networks config_data = Some ref →
  cd_heap config_data !! ref = Some (CommentedMap anchor items) →
  is_Some (update_config_data self config_data).
Proof.
  intros Href Hobj. unfold update_config_data. rewrite Href.
  unfold yaml_set_anchor.
  destruct (cd_global_overrides config_data); simpl; rewrite Hobj; by eexists.
Qed.

(** X11: a save goes through exactly when there are unsaved changes and
    the file parses and holds a [cidr_networks] mapping; a save that
    does not go through leaves file and screen as they were; when the
    file has no [cidr_networks] key, the plain [{}] put there has no
    [yaml_set_anchor] and the exception escapes ([Saving changes...]
    stays on screen). *)
Theorem save_goes_through_iff file self :
  let '(status, file', self') := action_save_configs file self in
  (status = ChangesSaved ↔
   has_unsaved_changes self = true
   ∧ ∃ config_data ref anchor items,
       file = Yaml config_data
       ∧ cd_cidr_networks config_data = Some ref
       ∧ cd_heap config_data !! ref = Some (CommentedMap anchor items))
  ∧ (status ≠ ChangesSaved → file' = file ∧ self' = self)
  ∧ (∀ config_data,
       file = Yaml config_data → cd_cidr_networks config_data = None →
       has_unsaved_changes self = true → status = SavingChanges).
Proof.
  destruct (action_save_configs file self) as [[status file'] self'] eqn:Hs.
  unfold action_save_configs in Hs.
  destruct (has_unsaved_changes self) eqn:Hchanged; simpl in Hs.
  2:{ simplify_eq. split; [|done]. split; [done|]. by intros [? _]. }
  destruct file as [| |config_data].
  1,2: simplify_eq; split; [|done]; split; [done|];
       by intros (_ & ? & ? & ? & ? & ? & _).
  destruct (update_config_data self config_data) as [config_data'|] eqn:Hu;
    simplify_eq.
  - split; [|split; [done|]].
    + split; [|done]. intros _. split; [done|].
      destruct (update_config_data_Some _ _ _ Hu) as (ref & heap' & Href & _ & _).
      exists config_data, ref.
      unfold update_config_data, yaml_set_anchor in Hu. rewrite Href in Hu.
      destruct (cd_heap config_data !! ref) as [[anchor items|items]|] eqn:Hobj.
      * by exists anchor, items.
      * exfalso. by destruct (cd_global_overrides config_data).
      * exfalso. by destruct (cd_global_overrides config_data).
    + intros config_data0 [= <-] Hnone.
      apply update_config_data_Some in Hu as (ref & _ & Href & _). congruence.
  - split; [|done]. split; [done|].
    intros (_ & config_data0 & ref & anchor & items & [= <-] & Href & Hobj).
    destruct (update_config_data_is_Some self' _ ref anchor items Href Hobj)
      as [? Hsome].
    congruence.
Qed.


(** X12: a successful save writes the names and cidrs of the screen's
    blocks under both [cidr_networks] keys and the screen's provider
    networks under [global_overrides]; every other key of the file read
    at save time, at top level and under [global_overrides], is written
    back as it was read. *)
Theorem save_writes_screen_and_keeps_the_rest file self file' self' :
  action_save_configs file self = (ChangesSaved, file', self') →
  ∃ config_data data global_overrides,
    file = Yaml config_data
    ∧ file' = Yaml data
    ∧ doc_cidr_networks (view data) = Some (written_cidrs self)
    ∧ (NoDup (Py.keys (cidr_networks self)) →
       written_cidrs self = current_cidrs self)
    ∧ doc_global_overrides (view data) = Some global_overrides
    ∧ go_cidr_networks global_overrides = Some (written_cidrs self)
    ∧ go_provider_networks global_overrides = Some (provider_networks self)
    ∧ go_rest global_overrides
      = from_option ov_rest ∅ (cd_global_overrides config_data)
    ∧ doc_rest (view data) = cd_rest config_data.
Proof.
  intros Hs.
  apply action_save_configs_saved in Hs
    as (config_data & data & -> & _ & Hu & -> & _).
  apply update_config_data_Some in Hu as (ref & heap' & _ & Hl & ->).
  eexists config_data, _, _. split; [done|]. split; [done|].
  split; [|split; [apply written_cidrs_distinct|]].
  - unfold view, read_mapping. simpl. by rewrite Hl.
  - split; [done|]. unfold view_overrides, read_mapping. simpl.
    by rewrite Hl.
Qed.

(** X13: after a successful save, saving again finds nothing to save:
    the file and the screen stay as the first save left them. *)
Theorem saving_again_finds_nothing_to_save (config : yaml_graph V)
    (ms : list (mutation V)) file file' self' :
  NoDup (Py.keys (default [] (doc_cidr_networks (view config)))) →
  let self := foldl mutate (load_configs (Yaml config) new_screen).2 ms in
  action_save_configs file self = (ChangesSaved, file', self') →
  action_save_configs file' self' = (NoChangesToSave, file', self').
Proof.
  intros Hnd self Hs.
  destruct (save_then_load_clean file self file' self') as (_ & _ & _ & _ & Hno);
    [by apply mutations_own, load_configs_own|done|].
  unfold action_save_configs. by rewrite Hno.
Qed.

(** *** Reloading puts every range back where it was *)

Lemma filter_owned_ranges objs d name :
  NoDup (Py.keys d) →
  (∀ n b q, (n, b) ∈ d → q ∈ used_ips b → owner objs q = Some n) →
  filter (λ r, owner objs r = Some name) (concat (used_ips <$> d.*2))
  = from_option used_ips [] (Py.get name d).
Proof.
  unfold Py.keys. induction d as [|[k b] d IH]; csimpl; [done|].
  intros [Hnin Hnd]%NoDup_cons Hplaced.
  rewrite filter_app, IH; [|done|].
  2:{ intros n b' q Hin. apply Hplaced. by right. }
  destruct (String.eqb_spec name k) as [->|Hne]; simpl.
  - assert (Py.get k d = None) as -> by (by apply get_None_keys).
    simpl. rewrite app_nil_r.
    assert (Forall (λ r, owner objs r = Some k) (used_ips b)) as Hall.
    { apply Forall_forall. intros q Hq. apply (Hplaced k b); [left|done]. }
    induction Hall as [|q l Hq _ IHl]; [done|].
    by rewrite filter_cons_True, IHl.
  - assert (filter (λ r, owner objs r = Some name) (used_ips b) = []) as ->;
      [|done].
    assert (Forall (λ r, owner objs r = Some k) (used_ips b)) as Hall.
    { apply Forall_forall. intros q Hq. apply (Hplaced k b); [left|done]. }
    induction Hall as [|q l Hq _ IHl]; [done|].
    rewrite filter_cons_False; [done|]. rewrite Hq. by intros [= ?].
Qed.

Lemma process_cidrs_fixpoint d :
  NoDup (Py.keys d) →
  placed (cidr_net_objects (declared d)) d →
  process_cidrs (declared d) (concat (used_ips <$> d.*2)) = d.
Proof.
  intros Hnd Hplaced.
  rewrite process_cidrs_closed_form by (by rewrite keys_declared).
  unfold declared. rewrite <- list_fmap_compose.
  transitivity (id <$> (d : list (string * block))); [|apply list_fmap_id].
  apply list_fmap_ext.
  intros i [name b] Hi. simpl. f_equal.
  rewrite (filter_owned_ranges _ d name Hnd).
  - rewrite (elem_of_get name b d Hnd); [by destruct b|].
    by eapply list_elem_of_lookup_2.
  - intros n b' q Hin Hq. apply owner_Some. by eapply Hplaced.
Qed.

(** X14: when every range on the screen falls first into the block that
    lists it (no earlier block is also holding its first address), the
    reload that follows a successful save leaves every block with the
    ranges it had, in the same order, and the provider networks as they
    were. *)
Theorem reload_after_save_keeps_ranges_in_place file self file' self' :
  NoDup (Py.keys (cidr_networks self)) →
  Forall (λ nb, Forall (λ q, owner (cidr_net_objects (current_cidrs self)) q
                             = Some nb.1)
                       (used_ips nb.2))
         (cidr_networks self) →
  action_save_configs file self = (ChangesSaved, file', self') →
  cidr_networks self' = cidr_networks self
  ∧ provider_networks self' = provider_networks self.
Proof.
  intros Hnd Hall Hs.
  assert (placed (cidr_net_objects (current_cidrs self)) (cidr_networks self))
    as Hplaced.
  { intros name b q Hin Hq. apply owner_Some.
    rewrite Forall_forall in Hall. specialize (Hall (name, b) Hin).
    rewrite Forall_forall in Hall. by apply Hall. }
  apply action_save_configs_saved in Hs
    as (config_data & data & -> & _ & Hu & -> & ->).
  apply update_config_data_Some in Hu as (ref & heap' & _ & Hl & ->).
  rewrite written_cidrs_distinct in Hl by done.
  unfold load_configs, view, read_mapping. simpl. rewrite Hl. simpl.
  split; [|done]. rewrite current_cidrs_declared in Hplaced |- *.
  by apply process_cidrs_fixpoint.
Qed.

End NetworkLaws.

(** ** The provider-network dialog *)

Section ProviderNetworkFacts.
Import ProviderNetwork.
Context {V : Type} `{!YamlValue V} `{!YamlData V}.
Implicit Types (network_data : provider_network V) (form : form V).

Lemma errors_Bridge form :
  "Bridge" ∈ errors form ↔ Py.strip (net_bridge form) = "".
Proof.
  unfold errors.
  repeat match goal with
         | |- context [bool_decide ?P] => destruct (bool_decide_reflect P)
         | |- context [truthy ?v] => destruct (truthy v)
         end; simpl;
    rewrite ?elem_of_cons, ?elem_of_nil; intuition congruence.
Qed.

Lemma errors_Type form :
  "Type" ∈ errors form ↔ truthy (net_type form) = false.
Proof.
  unfold errors.
  destruct (truthy (net_type form));
  repeat match goal with
         | |- context [bool_decide ?P] => destruct (bool_decide_reflect P)
         | |- context [truthy ?v] => destruct (truthy v)
         end; simpl;
    rewrite ?elem_of_cons, ?elem_of_nil; intuition congruence.
Qed.

Lemma errors_Interface form :
  "Container Interface" ∈ errors form ↔ Py.strip (net_interface form) = "".
Proof.
  unfold errors.
  repeat match goal with
         | |- context [bool_decide ?P] => destruct (bool_decide_reflect P)
         | |- context [truthy ?v] => destruct (truthy v)
         end; simpl;
    rewrite ?elem_of_cons, ?elem_of_nil; intuition congruence.
Qed.

Lemma errors_IpFrom form :
  "IP From Network" ∈ errors form ↔
  truthy (net_ip_from_q form) = false ∨ net_ip_from_q form = select_blank.
Proof.
  unfold errors.
  destruct (truthy (net_ip_from_q form));
  repeat match goal with
         | |- context [bool_decide ?P] => destruct (bool_decide_reflect P)
         | |- context [truthy ?v] => destruct (truthy v)
         end; simpl;
    rewrite ?elem_of_cons, ?elem_of_nil; intuition congruence.
Qed.

Lemma errors_nil form :
  errors form = [] ↔
  Py.strip (net_bridge form) ≠ "" ∧ truthy (net_type form) = true
  ∧ Py.strip (net_interface form) ≠ "" ∧ truthy (net_ip_from_q form) = true
  ∧ net_ip_from_q form ≠ select_blank.
Proof.
  unfold errors.
  destruct (truthy (net_type form)), (truthy (net_ip_from_q form));
  repeat match goal with
         | |- context [bool_decide ?P] => destruct (bool_decide_reflect P)
         end; simpl; intuition congruence.
Qed.

(** X15: [on_save] of the provider-network dialog lists a label exactly
    for each required field that is empty (bridge and interface after
    stripping, type falsy, network falsy or blank); it shows these
    labels and keeps the dialog open when there is one, and dismisses
    with a result only when every required field is filled. *)
Theorem provider_dialog_requires_its_fields network_data form :
  ("Bridge" ∈ errors form ↔ Py.strip (net_bridge form) = "")
  ∧ ("Type" ∈ errors form ↔ truthy (net_type form) = false)
  ∧ ("Container Interface" ∈ errors form ↔ Py.strip (net_interface form) = "")
  ∧ ("IP From Network" ∈ errors form ↔
     truthy (net_ip_from_q form) = false ∨ net_ip_from_q form = select_blank)
  ∧ match on_save network_data form with
    | inl shown => shown = errors form ∧ shown ≠ []
    | inr result =>
        Py.strip (net_bridge form) ≠ "" ∧ truthy (net_type form) = true
        ∧ Py.strip (net_interface form) ≠ ""
        ∧ truthy (net_ip_from_q form) = true
        ∧ net_ip_from_q form ≠ select_blank
    end.
Proof.
  split; [apply errors_Bridge|]. split; [apply errors_Type|].
  split; [apply errors_Interface|]. split; [apply errors_IpFrom|].
  unfold on_save. case_bool_decide as Herr; [done|].
  apply errors_nil. by destruct (decide (errors form = [])).
Qed.


Lemma on_save_inr_network network_data form result :
  on_save network_data form = inr result →
  let original := default ∅ (nd_network network_data) in
  let host := Py.strip (host_interface form) in
  let written :=
    <["group_binds" := yaml_strs (groups form)]>
      (<["ip_from_q" := net_ip_from_q form]>
         (<["container_interface" := yaml_str (Py.strip (net_interface form))]>
            (<["type" := net_type form]>
               (<["container_bridge" := yaml_str (Py.strip (net_bridge form))]>
                  original)))) in
  errors form = []
  ∧ nd_rest result = nd_rest network_data
  ∧ nd_network result
    = Some (if negb (bool_decide (host = ""))
               || from_option truthy false (original !! "host_bind_override")
            then <["host_bind_override" :=
                     if bool_decide (host = "") then yaml_none else yaml_str host]>
                   written
            else written).
Proof.
  unfold on_save. case_bool_decide as Herr; [done|].
  intros [= <-]. simpl. split; [|done].
  by destruct (decide (errors form = [])).
Qed.

(** X16: the entry [on_save] dismisses with is the edited entry with the
    fields of the dialog set: the keys outside [network] and the keys of
    [network] that the dialog does not manage are kept; the five fields
    hold the submitted values; [host_bind_override] holds the submitted
    host interface when one is given, [None] when it is left empty and
    the entry had a truthy one, and is left as it was otherwise. *)
Theorem provider_dialog_keeps_unedited_fields network_data form result :
  on_save network_data form = inr result →
  let original := default ∅ (nd_network network_data) in
  let host := Py.strip (host_interface form) in
  nd_rest result = nd_rest network_data
  ∧ ∃ network,
      nd_network result = Some network
      ∧ (∀ key, key ∉ managed → network !! key = original !! key)
      ∧ network !! "container_bridge" = Some (yaml_str (Py.strip (net_bridge form)))
      ∧ network !! "type" = Some (net_type form)
      ∧ network !! "container_interface"
        = Some (yaml_str (Py.strip (net_interface form)))
      ∧ network !! "ip_from_q" = Some (net_ip_from_q form)
      ∧ network !! "group_binds" = Some (yaml_strs (groups form))
      ∧ network !! "host_bind_override"
        = if bool_decide (host = "")
          then if from_option truthy false (original !! "host_bind_override")
               then Some yaml_none
               else original !! "host_bind_override"
          else Some (yaml_str host).
Proof.
  intros Hsave original host.
  destruct (on_save_inr_network _ _ _ Hsave) as (_ & Hrest & Hnet).
  fold original host in Hnet.
  split; [done|]. eexists. split; [exact Hnet|].
  split.
  { intros key Hkey. unfold managed in Hkey.
    repeat (apply not_elem_of_cons in Hkey as [? Hkey]).
    destruct (_ || _); by rewrite !lookup_insert_ne by done. }
  destruct (bool_decide_reflect (host = "")) as [Hhost|Hhost]; simpl;
    destruct (from_option truthy false (original !! "host_bind_override"));
    repeat split;
    repeat first [ rewrite lookup_insert_eq | rewrite lookup_insert_ne by done ];
    done.
Qed.

(** X17: submitting the same form on the entry that [on_save] returned
    returns that entry again. *)
Theorem provider_dialog_result_is_stable network_data form result :
  on_save network_data form = inr result →
  on_save result form = inr result.
Proof.
  intros Hsave.
  destruct (on_save_inr_network _ _ _ Hsave) as (Herr & Hrest & Hnet).
  cbv zeta in Hnet.
  unfold on_save. rewrite bool_decide_eq_false_2 by (by rewrite Herr; intros []).
  cbv zeta. clear Hsave. destruct result as [network rest].
  simpl in Hrest, Hnet. subst network rest. cbn [nd_network nd_rest default from_option].
  unfold id. f_equal. f_equal. f_equal.
  generalize (from_option (λ x : gmap string V, x) ∅ (nd_network network_data)).
  intros original.
  set (host := Py.strip (host_interface form)).
  apply map_eq. intros key.
  destruct (bool_decide_reflect (host = "")) as [Hhost|Hhost]; simpl;
    destruct (from_option truthy false (original !! "host_bind_override"))
      eqn:Hold; simpl;
    rewrite ?lookup_insert_eq, ?(lookup_insert_ne _ _ "host_bind_override")
      by done; simpl;
    try rewrite Hold; simpl;
    try match goal with
        | |- context [truthy yaml_none] => destruct (truthy yaml_none)
        end;
    rewrite !lookup_insert; repeat case_decide; congruence.
Qed.

(** X18: when the network an entry takes its addresses from is not (or
    no longer) among the blocks offered, the dialog opens with a blank
    selection, and submitting it without choosing a network is refused
    with [IP From Network] among the labels shown. *)
Theorem provider_dialog_drops_a_missing_network
    (cidr_options : list string) network_data form :
  default select_blank (default ∅ (nd_network network_data) !! "ip_from_q")
    ∉ yaml_str <$> cidr_options →
  net_ip_from_q form = current_ip_from_q cidr_options network_data →
  current_ip_from_q cidr_options network_data = select_blank
  ∧ on_save network_data form = inl (errors form)
  ∧ "IP From Network" ∈ errors form.
Proof.
  intros Hmissing Hform.
  assert (current_ip_from_q cidr_options network_data = select_blank) as Hblank.
  { unfold current_ip_from_q. cbv zeta. by rewrite bool_decide_eq_false_2. }
  split; [done|].
  assert ("IP From Network" ∈ errors form) as Hin.
  { apply errors_IpFrom. right. by rewrite Hform. }
  split; [|done]. unfold on_save. rewrite bool_decide_eq_true_2; [done|].
  intros Hnil. rewrite Hnil in Hin. by apply not_elem_of_nil in Hin.
Qed.

End ProviderNetworkFacts.

(** ** The generic configuration screen on its store *)

Section GenericStore.
Import ServiceConfig Generic.
Context {V : Type} `{!YamlValue V} `{!YamlText V}.
Implicit Types (gv : group_vars V) (self : screen V).

Lemma update_widgets_Some (config_data : gmap string V) self self' :
  update_widgets config_data self = Some self' →
  initial_data self' = initial_data self
  ∧ yaml_str (internal_lb_vip_address self')
    = default (yaml_str "") (config_data !! "internal_lb_vip_address")
  ∧ yaml_str (external_lb_vip_address self')
    = default (yaml_str "") (config_data !! "external_lb_vip_address").
Proof.
  unfold update_widgets. intros Hu.
  destruct (yaml_as_str (default _ (config_data !! "internal_lb_vip_address")))
    as [internal|] eqn:Hi; [|done].
  destruct (yaml_as_str (default _ (config_data !! "external_lb_vip_address")))
    as [external|] eqn:He; [|done].
  simpl in Hu. injection Hu as <-. simpl.
  apply yaml_as_str_Some in Hi, He. by rewrite Hi, He.
Qed.

Lemma load_configs_Loaded gv self gv' self' :
  load_configs gv self = Loaded gv' self' →
  ∃ moved,
    load_service_config gv "all" = Returned gv' moved (initial_data self') None
    ∧ yaml_str (internal_lb_vip_address self')
      = default (yaml_str "") (initial_data self' !! "internal_lb_vip_address")
    ∧ yaml_str (external_lb_vip_address self')
      = default (yaml_str "") (initial_data self' !! "external_lb_vip_address").
Proof.
  unfold load_configs. intros Hl.
  destruct (load_service_config gv "all") as [gv0 moved data [error|]|e];
    [done| |done].
  destruct (update_widgets data _) as [self0|] eqn:Hu; [|done].
  injection Hl as <- <-.
  apply update_widgets_Some in Hu as (Hinit & Hi & He). simpl in Hinit.
  exists moved. by rewrite Hinit.
Qed.

Lemma load_configs_Loaded_clean gv self gv' self' :
  load_configs gv self = Loaded gv' self' → has_unsaved_changes self' = false.
Proof.
  intros (moved & Hload & Hi & He)%load_configs_Loaded.
  unfold has_unsaved_changes. case_bool_decide; [done|].
  unfold _get_current_config. simpl.
  by rewrite Hi, He, !bool_decide_eq_true_2.
Qed.

(** X19: a run of [load_configs] that went through leaves a screen
    whose baseline is the mapping [load_service_config] returned for
    the service [all] and whose inputs show its values: no change is
    reported. *)
Theorem generic_load_leaves_a_clean_screen gv self gv' self' :
  load_configs gv self = Loaded gv' self' →
  has_unsaved_changes self' = false
  ∧ ∃ moved,
      load_service_config gv "all" = Returned gv' moved (initial_data self') None.
Proof.
  intros Hload. split; [by eapply load_configs_Loaded_clean|].
  apply load_configs_Loaded in Hload as (moved & Hload & _). by exists moved.
Qed.

(** X20: a save that went through, followed by its reload: the typed
    values are in [all/wizzard.yml]; no change is reported; and a typed
    value is back in the baseline and in its input whenever no file of
    [group_vars/all] whose name sorts after [wizzard.yml] binds its
    key. *)
Theorem generic_save_brings_back_what_was_typed gv self gv1 gv' self' :
  action_save_configs gv self = Saved gv1 (Loaded gv' self') →
  ∃ dir,
    gv_dirs gv' !! "all" = Some dir
    ∧ dir !! "wizzard.yml" = Some (YamlMapping (new_config self))
    ∧ has_unsaved_changes self' = false
    ∧ ∀ key typed,
        (key, typed) ∈ _get_current_config self →
        (∀ name other,
           matches_y_ml name = true →
           dir !! name = Some (YamlMapping other) →
           is_Some (other !! key) → String.le name "wizzard.yml") →
        initial_data self' !! key = Some (yaml_str typed)
        ∧ (key, typed) ∈ _get_current_config self'.
Proof.
  unfold action_save_configs. case_bool_decide as Hfile; [done|].
  cbv zeta. intros [= <- Hload].
  pose proof (load_configs_Loaded_clean _ _ _ _ Hload) as Hclean.
  apply load_configs_Loaded in Hload as (moved & Hload & Hi & He).
  destruct (saved_file_survives_migration _ _ _ _ _ _ _ Hload)
    as (dir & Hdir & Hw).
  destruct (merged_lookup _ _ _ _ _ Hload) as (dir' & Hdir' & Hiff).
  assert (dir' = dir) as -> by congruence.
  exists dir. split; [done|]. split; [done|]. split; [done|].
  intros key typed Hin Hmax.
  assert (new_config self !! key = Some (yaml_str typed)) as Hnew.
  { unfold _get_current_config in Hin. unfold new_config.
    apply elem_of_cons in Hin as [[= -> ->]|Hin].
    - by rewrite lookup_insert_eq.
    - apply list_elem_of_singleton in Hin as [= -> ->].
      rewrite lookup_insert_ne by done. by rewrite lookup_singleton_eq. }
  assert (initial_data self' !! key = Some (yaml_str typed)) as Hinit.
  { apply Hiff. exists "wizzard.yml", (new_config self). done. }
  split; [done|].
  unfold _get_current_config in Hin |- *.
  apply elem_of_cons in Hin as [[= -> ->]|Hin].
  - rewrite Hinit in Hi. simpl in Hi.
    apply (f_equal yaml_as_str) in Hi. rewrite !yaml_as_str_str in Hi.
    injection Hi as ->. left.
  - apply list_elem_of_singleton in Hin as [= -> ->].
    rewrite Hinit in He. simpl in He.
    apply (f_equal yaml_as_str) in He. rewrite !yaml_as_str_str in He.
    injection He as ->. right. left.
Qed.

End GenericStore.

(** ** The generic configuration screen and the empty baseline *)

Section EmptyBaseline.
Context {V : Type} `{!YamlValue V} `{!IpAddress}.

Lemma generic_empty_baseline (g : Generic.screen V) internal external :
  Generic.initial_data g = ∅ →
  Generic.has_unsaved_changes (Generic.type_values g internal external) = false
  ∧ Generic.asks_confirmation (Generic.type_values g internal external) = false.
Proof.
  intros Hempty. unfold Generic.asks_confirmation, Generic.has_unsaved_changes.
  simpl. by rewrite Hempty, bool_decide_eq_true_2.
Qed.

(** C10: while the baseline of the network screen is empty, whatever
    mutations are applied, [has_unsaved_changes] is false, a save only
    reports that there is nothing to save and leaves file and screen
    as they are, and leaving the screen asks no confirmation; on the
    generic screen an empty baseline likewise hides whatever was typed
    and leaving asks no confirmation. *)
Theorem empty_baseline_reports_no_changes
    (self : Network.screen V) (ms : list (Network.mutation V))
    (file : Network.user_config_file V)
    (g : Generic.screen V) (internal external : string) :
  Network.is_empty (Network.initial_data self) = true →
  Generic.initial_data g = ∅ →
  let self' := foldl Network.mutate self ms in
  let g' := Generic.type_values g internal external in
  (Network.has_unsaved_changes self' = false
   ∧ Network.action_save_configs file self' = (Network.NoChangesToSave, file, self')
   ∧ Network.asks_confirmation self' = false)
  ∧ (Generic.has_unsaved_changes g' = false
     ∧ Generic.asks_confirmation g' = false).
Proof.
  intros Hnet Hgen self' g'. split.
  - by apply network_empty_baseline.
  - by apply generic_empty_baseline.
Qed.

End EmptyBaseline.

(** ** The examples, evaluated *)

Section NetworkExamples.
Import Network Examples.
#[local] Existing Instance Ipv4.ipv4.

(** C8: the [used_ips] a successful save writes is the concatenation of
    the blocks' lists in the order of the blocks; and this is not the
    order of the file in general: loading [two_blocks_interleaved],
    running [session] and saving writes the ranges of [mgmt] before
    those of [storage], which the file had interleaved. *)
Theorem saved_used_ips_are_grouped_by_block :
  (∀ (V : Type) (Y : YamlValue V) (I : IpAddress)
     (file : user_config_file V) (self : screen V) file' self',
     action_save_configs file self = (ChangesSaved, file', self') →
     ∃ data,
       file' = Yaml data
       ∧ doc_used_ips (view data)
         = Some (concat (used_ips <$> (cidr_networks self).*2)))
  ∧ (∃ (self : screen string) written self',
       self = (load_configs (Yaml two_blocks_interleaved) new_screen).2
       ∧ action_save_configs (Yaml two_blocks_interleaved)
           (action_add_provider_network self (Some "br-vxlan"))
         = (ChangesSaved, Yaml written, self')
       ∧ cd_used_ips two_blocks_interleaved
         = Some ["10.1.0.4"; "10.0.0.5,10.0.0.10"; "10.1.2.2"]
       ∧ cd_used_ips written
         = Some ["10.0.0.5,10.0.0.10"; "10.1.0.4"; "10.1.2.2"]).
Proof.
  split.
  - intros V Y I file self file' self'. apply save_writes_grouped_ranges.
  - eexists _, _, _. split; [reflexivity|].
    split; [vm_compute; reflexivity|]. split; reflexivity.
Qed.

Lemma saved_used_ips_are_grouped_by_block_witness :
  ∃ data,
    saved.1.2 = Yaml data
    ∧ doc_used_ips (view data)
      = Some (concat (used_ips <$> (cidr_networks edited).*2)).
Proof.
  apply (proj1 saved_used_ips_are_grouped_by_block
           string _ _ (Yaml two_blocks_interleaved) edited saved.1.2 saved.2).
  vm_compute. reflexivity.
Defined.

Lemma saved_mapping_is_shared_witness :
  ∃ data ref global_overrides,
    saved.1.2 = Yaml data
    ∧ cd_cidr_networks data = Some ref
    ∧ cd_global_overrides data = Some global_overrides
    ∧ ov_cidr_networks global_overrides = Some ref
    ∧ cd_heap data !! ref
      = Some (CommentedMap (Some ("cidr_networks", true)) (written_cidrs edited))
    ∧ dump_cidr_networks data
      = if cd_overrides_first data
        then [(UnderGlobalOverrides,
               MappingNode (Some "cidr_networks") (written_cidrs edited));
              (TopLevel, AliasNode "cidr_networks")]
        else [(TopLevel,
               MappingNode (Some "cidr_networks") (written_cidrs edited));
              (UnderGlobalOverrides, AliasNode "cidr_networks")].
Proof.
  apply (saved_mapping_is_shared (Yaml two_blocks_interleaved) edited
           saved.1.2 saved.2).
  vm_compute. reflexivity.
Defined.

Lemma save_then_load_is_clean_witness :
  ∃ data,
    saved.1.2 = Yaml data
    ∧ saved.2 = (load_configs saved.1.2 edited).2
    ∧ initial_data saved.2 = view data
    ∧ has_unsaved_changes saved.2 = false.
Proof.
  apply (save_then_load_is_clean two_blocks_interleaved session
           (Yaml two_blocks_interleaved) saved.1.2 saved.2).
  - apply (bool_decide_unpack _). vm_compute. exact I.
  - vm_compute. reflexivity.
Defined.

Lemma reordered_used_ips_are_no_change_witness :
  doc_used_ips (initial_data loaded)
  = Some ["10.1.0.4"; "10.0.0.5,10.0.0.10"; "10.1.2.2"]
  ∧ concat (used_ips <$> (cidr_networks loaded).*2)
    = ["10.0.0.5,10.0.0.10"; "10.1.0.4"; "10.1.2.2"]
  ∧ has_unsaved_changes loaded = false.
Proof.
  split; [reflexivity|]. split; [vm_compute; reflexivity|].
  apply (reordered_used_ips_are_no_change loaded
           [("mgmt", "10.0.0.0/24"); ("storage", "10.1.0.0/16")]
           {| go_cidr_networks :=
                Some [("mgmt", "10.0.0.0/24"); ("storage", "10.1.0.0/16")];
              go_provider_networks := Some ["br-mgmt"];
              go_rest := ∅ |}).
  - reflexivity.
  - vm_compute. reflexivity.
  - reflexivity.
  - reflexivity.
  - vm_compute. apply perm_swap.
Defined.

Lemma orphaned_range_is_dropped_witness :
  cidr_networks with_orphan
  = [("mgmt", {| cidr := "10.0.0.0/24"; used_ips := ["10.0.0.5,10.0.0.10"] |})]
  ∧ has_unsaved_changes with_orphan = true
  ∧ ∃ data written,
      (action_save_configs (Yaml one_block_one_orphan) with_orphan).1.2 = Yaml data
      ∧ doc_used_ips (view data) = Some written
      ∧ "192.168.9.9" ∉ written.
Proof.
  destruct (orphaned_range_is_dropped one_block_one_orphan new_screen
              "192.168.9.9" (3232237833%N : @address Ipv4.ipv4)) as (_ & Hdirty & Hsave).
  - vm_compute. reflexivity.
  - intros name cidr_str net Hin Hnet. simpl in Hin.
    apply list_elem_of_singleton in Hin. injection Hin as -> ->.
    vm_compute in Hnet. injection Hnet as <-. vm_compute. reflexivity.
  - split; [vm_compute; reflexivity|]. split.
    + apply Hdirty. simpl. right. left.
    + eapply (Hsave (Yaml one_block_one_orphan) _
                (action_save_configs (Yaml one_block_one_orphan) with_orphan).2).
      vm_compute. reflexivity.
Defined.

Lemma empty_baseline_reports_no_changes_witness :
  let self' := foldl mutate new_screen session in
  let g' := Generic.type_values (Generic.new_screen (V:=string))
              "internal.example.cloud" "example.cloud" in
  (has_unsaved_changes self' = false
   ∧ action_save_configs NoFile self' = (NoChangesToSave, NoFile, self')
   ∧ asks_confirmation self' = false)
  ∧ (Generic.has_unsaved_changes g' = false
     ∧ Generic.asks_confirmation g' = false).
Proof.
  apply (empty_baseline_reports_no_changes new_screen session NoFile
           Generic.new_screen "internal.example.cloud" "example.cloud").
  - vm_compute. reflexivity.
  - reflexivity.
Defined.

End NetworkExamples.

Section ServiceConfigWitnesses.
Import ServiceConfig Examples.

Lemma later_file_name_wins_witness :
  ∃ gv' moved merged_config,
    load_service_config site "haproxy" = Returned gv' moved merged_config None
    ∧ ∃ dir,
        gv_dirs gv' !! "haproxy" = Some dir
        ∧ ∀ k v,
            merged_config !! k = Some v ↔
            ∃ name data,
              matches_y_ml name = true
              ∧ dir !! name = Some (YamlMapping data)
              ∧ data !! k = Some v
              ∧ ∀ name' data',
                  matches_y_ml name' = true →
                  dir !! name' = Some (YamlMapping data') →
                  is_Some (data' !! k) → String.le name' name.
Proof.
  eexists _, _, _. split; [vm_compute; reflexivity|].
  eapply (later_file_name_wins site "haproxy"). vm_compute. reflexivity.
Defined.

Lemma first_unparsable_file_aborts_load_witness :
  ∃ gv' moved merged_config,
    load_service_config broken "haproxy"
    = Returned gv' moved merged_config (Some (ErrorLoading "b.yaml"))
    ∧ ∃ dir,
        gv_dirs gv' !! "haproxy" = Some dir
        ∧ merged_config = ∅
        ∧ ∃ name,
            ErrorLoading "b.yaml" = ErrorLoading name
            ∧ matches_y_ml name = true
            ∧ dir !! name = Some YamlInvalid
            ∧ ∀ name',
                matches_y_ml name' = true →
                dir !! name' = Some YamlInvalid → String.le name name'.
Proof.
  eexists _, _, _. split; [vm_compute; reflexivity|].
  eapply (first_unparsable_file_aborts_load broken "haproxy" _ _ _
           (Some (ErrorLoading "b.yaml"))).
  vm_compute. reflexivity.
Defined.

Lemma second_call_changes_nothing_witness :
  ∃ gv' moved merged_config,
    load_service_config site "haproxy" = Returned gv' moved merged_config None
    ∧ moved = [("haproxy.yml", "migrated_haproxy.yml");
               ("haproxy_all.yaml", "migrated_haproxy.yml")]
    ∧ load_service_config gv' "haproxy" = Returned gv' [] merged_config None.
Proof.
  eexists _, _, _. split; [vm_compute; reflexivity|]. split; [reflexivity|].
  eapply (second_call_changes_nothing site "haproxy"). vm_compute. reflexivity.
Defined.

Lemma migration_touches_nothing_else_witness :
  ∃ gv' moved merged_config,
    load_service_config site "haproxy" = Returned gv' moved merged_config None
    ∧ (∀ f, f ∈ legacy_files "haproxy" → gv_files gv' !! f = None)
    ∧ (∀ g, g ∉ legacy_files "haproxy" → gv_files gv' !! g = gv_files site !! g)
    ∧ (∀ other, other ≠ "haproxy" → gv_dirs gv' !! other = gv_dirs site !! other)
    ∧ ∃ dir,
        gv_dirs gv' !! "haproxy" = Some dir
        ∧ ∀ name, name ∉ moved.*2 →
            dir !! name = default ∅ (gv_dirs site !! "haproxy") !! name.
Proof.
  eexists _, _, _. split; [vm_compute; reflexivity|].
  eapply (migration_touches_nothing_else site "haproxy"). vm_compute. reflexivity.
Defined.

Lemma legacy_files_share_one_target_witness :
  ∃ gv' moved merged_config,
    load_service_config site "haproxy" = Returned gv' moved merged_config None
    ∧ moved = (λ f, (f, "migrated_haproxy.yml")) <$> ["haproxy.yml"; "haproxy_all.yaml"]
    ∧ ∀ f, last ["haproxy.yml"; "haproxy_all.yaml"] = Some f →
        ∃ dir, gv_dirs gv' !! "haproxy" = Some dir
               ∧ dir !! "migrated_haproxy.yml" = gv_files site !! f
               ∧ is_Some (gv_files site !! f).
Proof.
  eexists _, _, _. split; [vm_compute; reflexivity|].
  eapply (legacy_files_share_one_target site "haproxy"). vm_compute. reflexivity.
Defined.

Lemma saved_config_is_loaded_back_witness :
  ∃ gv' moved merged_config,
    load_service_config
      (save_service_config site "haproxy" {[ "haproxy_port" := "9443" ]}) "haproxy"
    = Returned gv' moved merged_config None
    ∧ ∃ dir,
        gv_dirs gv' !! "haproxy" = Some dir
        ∧ dir !! "wizzard.yml" = Some (YamlMapping {[ "haproxy_port" := "9443" ]})
        ∧ ∀ k v,
            ({[ "haproxy_port" := "9443" ]} : gmap string string) !! k = Some v →
            (∀ name other,
               matches_y_ml name = true →
               dir !! name = Some (YamlMapping other) →
               is_Some (other !! k) → String.le name "wizzard.yml") →
            merged_config !! k = Some v.
Proof.
  eexists _, _, _. split; [vm_compute; reflexivity|].
  eapply (saved_config_is_loaded_back site "haproxy"). vm_compute. reflexivity.
Defined.

End ServiceConfigWitnesses.

Section NetworkWitnesses.
Import Network Examples.
#[local] Existing Instance Ipv4.ipv4.

Lemma load_groups_ranges_by_first_match_witness :
  cidr_networks loaded
  = (λ '(name, value),
       (name, {| cidr := value;
                 used_ips :=
                   filter (λ r, owner (cidr_net_objects
                                         (default [] (doc_cidr_networks
                                                        (view two_blocks_interleaved)))) r
                                = Some name)
                          (default [] (doc_used_ips (view two_blocks_interleaved))) |}))
      <$> default [] (doc_cidr_networks (view two_blocks_interleaved)).
Proof.
  apply (load_groups_ranges_by_first_match two_blocks_interleaved new_screen).
  apply (bool_decide_unpack _). vm_compute. exact I.
Defined.

Lemma fresh_load_is_clean_iff_witness :
  has_unsaved_changes with_orphan = false
  ↔ Forall (λ r, is_Some (owner (cidr_net_objects [("mgmt", "10.0.0.0/24")]) r))
           (default [] (doc_used_ips (view one_block_one_orphan))).
Proof.
  apply (fresh_load_is_clean_iff one_block_one_orphan new_screen
           [("mgmt", "10.0.0.0/24")]
           {| go_cidr_networks := Some [("mgmt", "10.0.0.0/24")];
              go_provider_networks := Some [];
              go_rest := ∅ |} []); reflexivity.
Defined.

Lemma reload_after_save_keeps_ranges_in_place_witness :
  let self := action_add_provider_network loaded (Some "br-vxlan") in
  let result := action_save_configs (Yaml two_blocks_interleaved) self in
  cidr_networks result.2 = cidr_networks self
  ∧ provider_networks result.2 = provider_networks self.
Proof.
  intros self result.
  apply (reload_after_save_keeps_ranges_in_place
           (Yaml two_blocks_interleaved) self result.1.2 result.2).
  - apply (bool_decide_unpack _). vm_compute. exact I.
  - apply (bool_decide_unpack _). vm_compute. exact I.
  - vm_compute. reflexivity.
Defined.

Lemma edit_under_new_name_keeps_old_block_witness :
  let form := CidrForm "mgmt2" "10.0.0.0/24" ["10.0.0.5,10.0.0.10"] in
  let old := {| cidr := "10.0.0.0/24"; used_ips := ["10.0.0.5,10.0.0.10"] |} in
  let self' := action_edit_cidr loaded "mgmt" (submit form) in
  Py.get "mgmt" (cidr_networks self') = Some old
  ∧ Py.get "mgmt2" (cidr_networks self') = Some old
  ∧ (Py.get "mgmt2" (cidr_networks loaded) = None →
     Py.keys (cidr_networks self') = Py.keys (cidr_networks loaded) ++ ["mgmt2"]).
Proof.
  intros form old.
  apply (edit_under_new_name_keeps_old_block loaded "mgmt" form "mgmt2" old old).
  - done.
  - vm_compute. reflexivity.
  - vm_compute. reflexivity.
  - done.
Defined.

Lemma save_writes_screen_and_keeps_the_rest_witness :
  ∃ config_data data global_overrides,
    Yaml two_blocks_interleaved = Yaml config_data
    ∧ saved.1.2 = Yaml data
    ∧ doc_cidr_networks (view data) = Some (written_cidrs edited)
    ∧ (NoDup (Py.keys (cidr_networks edited)) →
       written_cidrs edited = current_cidrs edited)
    ∧ doc_global_overrides (view data) = Some global_overrides
    ∧ go_cidr_networks global_overrides = Some (written_cidrs edited)
    ∧ go_provider_networks global_overrides = Some (provider_networks edited)
    ∧ go_rest global_overrides
      = from_option ov_rest ∅ (cd_global_overrides config_data)
    ∧ doc_rest (view data) = cd_rest config_data.
Proof.
  apply (save_writes_screen_and_keeps_the_rest (Yaml two_blocks_interleaved)
           edited saved.1.2 saved.2).
  vm_compute. reflexivity.
Defined.

Lemma saving_again_finds_nothing_to_save_witness :
  action_save_configs saved.1.2 saved.2 = (NoChangesToSave, saved.1.2, saved.2).
Proof.
  apply (saving_again_finds_nothing_to_save two_blocks_interleaved session
           (Yaml two_blocks_interleaved) saved.1.2 saved.2).
  - apply (bool_decide_unpack _). vm_compute. exact I.
  - vm_compute. reflexivity.
Defined.

End NetworkWitnesses.

Section GenericWitnesses.
Import ServiceConfig Generic Examples.

Lemma generic_load_leaves_a_clean_screen_witness :
  ∃ gv' self',
    load_configs all_vars new_screen = Loaded gv' self'
    ∧ internal_lb_vip_address self' = "172.29.236.9"
    ∧ has_unsaved_changes self' = false
    ∧ ∃ moved,
        load_service_config all_vars "all"
        = Returned gv' moved (initial_data self') None.
Proof.
  eexists _, _. split; [vm_compute; reflexivity|]. split; [reflexivity|].
  eapply (generic_load_leaves_a_clean_screen all_vars new_screen).
  vm_compute. reflexivity.
Defined.

Lemma generic_save_brings_back_what_was_typed_witness :
  let self := type_values (new_screen (V:=string))
                "internal.example.cloud" "example.cloud" in
  ∃ gv1 gv' self',
    action_save_configs all_vars self = Saved gv1 (Loaded gv' self')
    ∧ ∃ dir,
        gv_dirs gv' !! "all" = Some dir
        ∧ dir !! "wizzard.yml" = Some (YamlMapping (new_config self))
        ∧ has_unsaved_changes self' = false
        ∧ ∀ key typed,
            (key, typed) ∈ _get_current_config self →
            (∀ name other,
               matches_y_ml name = true →
               dir !! name = Some (YamlMapping other) →
               is_Some (other !! key) → String.le name "wizzard.yml") →
            initial_data self' !! key = Some (yaml_str typed)
            ∧ (key, typed) ∈ _get_current_config self'.
Proof.
  intros self. eexists _, _, _. split; [vm_compute; reflexivity|].
  eapply (generic_save_brings_back_what_was_typed all_vars self).
  vm_compute. reflexivity.
Defined.

End GenericWitnesses.

Section ProviderNetworkWitnesses.
Import ProviderNetwork Scalar Examples.

Lemma provider_dialog_keeps_unedited_fields_witness :
  ∃ result,
    on_save management_network management_form = inr result
    ∧ nd_rest result = nd_rest management_network
    ∧ ∃ network,
        nd_network result = Some network
        ∧ (∀ key, key ∉ managed →
             network !! key = default ∅ (nd_network management_network) !! key)
        ∧ network !! "container_bridge" = Some (Str "br-mgmt")
        ∧ network !! "type" = Some (Str "raw")
        ∧ network !! "container_interface" = Some (Str "eth2")
        ∧ network !! "ip_from_q" = Some (Str "management")
        ∧ network !! "group_binds" = Some (Strs ["all_containers"; "hosts"])
        ∧ network !! "host_bind_override" = Some NoneValue.
Proof.
  eexists. split; [vm_compute; reflexivity|].
  match goal with
  | |- nd_rest ?result = _ ∧ _ =>
      assert (on_save management_network management_form = inr result) as Hsave
        by (vm_compute; reflexivity);
      exact (provider_dialog_keeps_unedited_fields management_network
               management_form result Hsave)
  end.
Defined.

Lemma provider_dialog_result_is_stable_witness :
  ∃ result,
    on_save management_network management_form = inr result
    ∧ on_save result management_form = inr result.
Proof.
  eexists. split; [vm_compute; reflexivity|].
  eapply (provider_dialog_result_is_stable management_network management_form).
  vm_compute. reflexivity.
Defined.

Lemma provider_dialog_drops_a_missing_network_witness :
  let form :=
    {| net_bridge := "br-mgmt"; net_type := Str "raw"; net_interface := "eth1";
       host_interface := "bond0";
       net_ip_from_q := current_ip_from_q ["storage"] management_network;
       net_groups_lines := [] |} in
  current_ip_from_q ["storage"] management_network = Blank
  ∧ on_save management_network form = inl (errors form)
  ∧ "IP From Network" ∈ errors form.
Proof.
  intros form.
  assert (default select_blank
            (default ∅ (nd_network management_network) !! "ip_from_q")
          ∉ yaml_str <$> ["storage"]) as Hmissing
    by (apply (bool_decide_unpack _); vm_compute; exact I).
  exact (provider_dialog_drops_a_missing_network ["storage"]
           management_network form Hmissing eq_refl).
Defined.

End ProviderNetworkWitnesses.
